(** * ArXiv quantum-physics triage agent: the deterministic core

    A shallow embedding of the pure and near-pure parts of
    [arxiv_quantum_agent.py]:

    - [extract_latex_equations]   (the LaTeX equation extractor),
    - [calculate_relevance_score] (the keyword and recency scorer),
    - [MetricsPlugin]             (the telemetry counters and their summary),
    - [AgentEvaluator.evaluate_performance] (the rating thresholds),
    - [AgentEvaluator.evaluate_retrieval_quality] and
      [AgentEvaluator.evaluate_summary_completeness],
    - [fetch_arxiv_papers]        (from the parsed response on),

    and of the [TestSuite] of [test_agent.py].

    Modelling conventions.

    - Python [int] is [Z].  Python [float] values are modelled by the exact
      number they are meant to hold: the relevance score, a sum of the
      integers 20, 10 and 15, is a [Z]; durations and rates are [Q].  No
      rounding error of binary floating point is modelled.
    - A [datetime] is the number of microseconds it denotes, a [Z]; every
      reading of the clock ([datetime.now()]) is an explicit argument.
    - A [str] is a [string] of 8-bit code points.
    - A [dict] with string keys is a [gmap string _]; a subscript
      [d["k"]] on a missing key raises [KeyError], modelled by [None].
    - Calls to [logging] have no effect on the modelled state and are
      left out. *)

From Stdlib Require Import ZArith QArith Qround Ascii String List Lia Lqa.
From Stdlib Require Import Sorted.
From stdpp Require Import base gmap sets list strings pretty.

Local Open Scope string_scope.

(** ** Section 2 of the source: [MetricsPlugin] *)

(** The instance attributes set by [MetricsPlugin.__init__].  [start_time]
    is [None] or a [datetime]. *)
Record MetricsPlugin := mkMetricsPlugin {
  agent_calls : Z;
  papers_processed : Z;
  total_processing_time : Q;
  successful_operations : Z;
  failed_operations : Z;
  start_time : option Z
}.

(** [MetricsPlugin.__init__] *)
Definition metrics_init : MetricsPlugin :=
  {| agent_calls := 0;
     papers_processed := 0;
     total_processing_time := 0;
     successful_operations := 0;
     failed_operations := 0;
     start_time := None |}.

(** [timedelta.total_seconds()] of [later - earlier], both in microseconds. *)
Definition total_seconds (later earlier : Z) : Q :=
  inject_Z (later - earlier) / inject_Z 1000000.

(** [MetricsPlugin.before_agent_callback]; [now] is what [datetime.now()]
    returns inside the call. *)
Definition before_agent_callback (now : Z) (self : MetricsPlugin) : MetricsPlugin :=
  {| agent_calls := agent_calls self + 1;
     papers_processed := papers_processed self;
     total_processing_time := total_processing_time self;
     successful_operations := successful_operations self;
     failed_operations := failed_operations self;
     start_time := Some now |}.

(** [MetricsPlugin.after_agent_callback].  A [datetime] is always truthy,
    so [if self.start_time:] tests for [None] only. *)
Definition after_agent_callback (now : Z) (self : MetricsPlugin) : MetricsPlugin :=
  match start_time self with
  | Some started =>
      let processing_time := total_seconds now started in
      {| agent_calls := agent_calls self;
         papers_processed := papers_processed self;
         total_processing_time := (total_processing_time self + processing_time)%Q;
         successful_operations := successful_operations self + 1;
         failed_operations := failed_operations self;
         start_time := start_time self |}
  | None => self
  end.

(** Python's [round(x)] to the nearest integer, ties to even. *)
Definition round_half_even (q : Q) : Z :=
  let f := Qfloor q in
  match Qcompare (q - inject_Z f) (1 # 2) with
  | Lt => f
  | Gt => (f + 1)%Z
  | Eq => if Z.even f then f else (f + 1)%Z
  end.

(** [round(x, 2)], on the exact value: the nearest whole number of
    hundredths, ties to even.  The source rounds the double that stands for
    the value, which can lie on the other side of a tie (the double nearest
    to 0.005 is above it and is rounded to 0.01); the two agree where the
    value is itself a whole number of hundredths, such as 0 and 100. *)
Definition round2 (q : Q) : Q :=
  inject_Z (round_half_even (q * 100)) / 100.

(** [MetricsPlugin.get_metrics_summary] *)
Definition get_metrics_summary (self : MetricsPlugin) : gmap string Q :=
  let success_rate :=
    if (0 <? successful_operations self + failed_operations self)%Z
    then (inject_Z (successful_operations self)
          / inject_Z (successful_operations self + failed_operations self)
          * 100)%Q
    else 0%Q in
  let avg_processing_time :=
    if (0 <? successful_operations self)%Z
    then (total_processing_time self / inject_Z (successful_operations self))%Q
    else 0%Q in
  <["total_agent_calls" := inject_Z (agent_calls self)]>
  (<["papers_processed" := inject_Z (papers_processed self)]>
  (<["total_processing_time_seconds" := round2 (total_processing_time self)]>
  (<["average_processing_time_seconds" := round2 avg_processing_time]>
  (<["successful_operations" := inject_Z (successful_operations self)]>
  (<["failed_operations" := inject_Z (failed_operations self)]>
  (<["success_rate_percent" := round2 success_rate]> ∅)))))).

(** The two callbacks as events, each carrying its reading of the clock,
    and a single-threaded run of a list of them on one instance. *)
Inductive callback :=
| Before (now : Z)
| After (now : Z).

Definition fire (c : callback) (self : MetricsPlugin) : MetricsPlugin :=
  match c with
  | Before now => before_agent_callback now self
  | After now => after_agent_callback now self
  end.

Fixpoint run (calls : list callback) (self : MetricsPlugin) : MetricsPlugin :=
  match calls with
  | [] => self
  | c :: rest => run rest (fire c self)
  end.

(** Which of the two callbacks an event is. *)
Definition is_before (c : callback) : bool :=
  match c with Before _ => true | After _ => false end.

Definition is_after (c : callback) : bool :=
  match c with Before _ => false | After _ => true end.

(** A run without the end callbacks that come before its first start. *)
Fixpoint skip_leading_ends (calls : list callback) : list callback :=
  match calls with
  | After _ :: rest => skip_leading_ends rest
  | _ => calls
  end.

(** ** Strings: the [str] methods the source calls *)

(** [ch.isspace()] for the code points below 256: tab to carriage return,
    the four separators FS to US, space, NEL and the no-break space. *)
Definition isspace (c : ascii) : bool :=
  let n := nat_of_ascii c in
  (((9 <=? n) && (n <=? 13)) || ((28 <=? n) && (n <=? 32))
   || (n =? 133) || (n =? 160))%nat.

(** [ch.lower()] for the code points below 256: the letters A to Z and the
    accented capitals U+00C0 to U+00DE, the multiplication sign apart. *)
Definition chr_lower (c : ascii) : ascii :=
  let n := nat_of_ascii c in
  if (((65 <=? n) && (n <=? 90))
      || ((192 <=? n) && (n <=? 222) && negb (n =? 215)))%nat
  then ascii_of_nat (n + 32) else c.

(** [s.lower()] *)
Fixpoint str_lower (s : string) : string :=
  match s with
  | EmptyString => EmptyString
  | String c rest => String (chr_lower c) (str_lower rest)
  end.

(** [s.removeprefix(p)] when [s.startswith(p)], else [None]. *)
Fixpoint strip_prefix (p s : string) : option string :=
  match p with
  | EmptyString => Some s
  | String a p' =>
      match s with
      | EmptyString => None
      | String b s' => if Ascii.eqb a b then strip_prefix p' s' else None
      end
  end.

(** [needle in hay] on strings: [needle] occurs at some offset of [hay]. *)
Fixpoint str_contains (needle hay : string) : bool :=
  match strip_prefix needle hay with
  | Some _ => true
  | None =>
      match hay with
      | EmptyString => false
      | String _ rest => str_contains needle rest
      end
  end.

(** [s.lstrip()], [s.rstrip()] and [s.strip()] *)
Fixpoint str_lstrip (s : string) : string :=
  match s with
  | EmptyString => EmptyString
  | String c rest => if isspace c then str_lstrip rest else s
  end.

Fixpoint str_rstrip (s : string) : string :=
  match s with
  | EmptyString => EmptyString
  | String c rest =>
      match str_rstrip rest with
      | EmptyString => if isspace c then EmptyString else String c EmptyString
      | kept => String c kept
      end
  end.

Definition str_strip (s : string) : string := str_rstrip (str_lstrip s).

(** [s.replace("Z", "+00:00")] *)
Fixpoint replace_Z (s : string) : string :=
  match s with
  | EmptyString => EmptyString
  | String c rest =>
      if Ascii.eqb c "Z" then "+00:00" +:+ replace_Z rest
      else String c (replace_Z rest)
  end.

(** ** Section 1 of the source: [extract_latex_equations] *)

(** Each of the four regular expressions is an opening literal, the lazy
    group [(.*?)] and a closing literal, compiled with [re.DOTALL], so the
    dot takes every character.  A pattern is kept as its two literals. *)
Definition patterns : list (string * string) :=
  [ ("$$", "$$");
    ("$", "$");
    ("\begin{equation}", "\end{equation}");
    ("\begin{align}", "\end{align}") ].

(** The lazy group followed by the closing literal, tried at the head of
    [s]: the group grows one character at a time until the closing literal
    matches.  Returns the group and the text after the match. *)
Fixpoint lazy_group (close s : string) : option (string * string) :=
  match strip_prefix close s with
  | Some after => Some (EmptyString, after)
  | None =>
      match s with
      | EmptyString => None
      | String c rest =>
          match lazy_group close rest with
          | Some (group, after) => Some (String c group, after)
          | None => None
          end
      end
  end.

(** One attempt of the whole pattern at the head of [s]. *)
Definition match_here (open close s : string) : option (string * string) :=
  match strip_prefix open s with
  | Some body => lazy_group close body
  | None => None
  end.

(** The scan of [re.findall]: the leftmost match is taken, its group is
    kept and the scan resumes after the match; where the pattern fails the
    scan moves one character on.  [fuel] bounds the number of steps. *)
Fixpoint findall_from (fuel : nat) (open close s : string) : list string :=
  match fuel with
  | O => []
  | S fuel' =>
      match s with
      | EmptyString => []
      | String _ rest =>
          match match_here open close s with
          | Some (group, after) => group :: findall_from fuel' open close after
          | None => findall_from fuel' open close rest
          end
      end
  end.

(** [re.findall(pattern, text, re.DOTALL)] *)
Definition findall (pattern : string * string) (text : string) : list string :=
  findall_from (String.length text) (fst pattern) (snd pattern) text.

(** Truthiness of a [str]. *)
Definition nonempty (s : string) : bool :=
  match s with
  | EmptyString => false
  | String _ _ => true
  end.

(** [[m.strip() for m in matches if m.strip()]] *)
Definition stripped (matches : list string) : list string :=
  List.map str_strip (List.filter (fun m => nonempty (str_strip m)) matches).

(** The first loop: [equations] after every pattern has been applied. *)
Definition equations_of (text : string) : list string :=
  List.flat_map (fun pattern => stripped (findall pattern text)) patterns.

(** The second loop, from a given [seen] and [unique_equations]. *)
Fixpoint unique_loop (equations : list string) (seen : gset string)
    (unique_equations : list string) : list string :=
  match equations with
  | [] => unique_equations
  | eq :: rest =>
      if decide (eq ∈ seen) then unique_loop rest seen unique_equations
      else unique_loop rest ({[eq]} ∪ seen) (unique_equations ++ [eq])
  end.

Definition unique_equations_of (equations : list string) : list string :=
  unique_loop equations ∅ [].

Definition extract_latex_equations (text : string) : list string :=
  unique_equations_of (equations_of text).

(** ** Section 1 of the source: [calculate_relevance_score] *)

(** The values a paper dictionary holds: [fetch_arxiv_papers] stores a
    [str] under "id", "title", "abstract", "published", "arxiv_url" and
    "pdf_url", and a list of [str] under "authors" and "categories". *)
Inductive field :=
| Str (s : string)
| StrList (l : list string).

(** [paper[key]] used as a [str]: a missing key raises [KeyError] and a
    list has none of the [str] methods ([AttributeError]). *)
Definition str_field (paper : gmap string field) (key : string) : option string :=
  match paper !! key with
  | Some (Str s) => Some s
  | _ => None
  end.

(** The body of the loop over [user_keywords]. *)
Definition keyword_score (title_lower abstract_lower : string)
    (score : Z) (keyword : string) : Z :=
  let keyword_lower := str_lower keyword in
  let score :=
    if str_contains keyword_lower title_lower then (score + 20)%Z else score in
  let score :=
    if str_contains keyword_lower abstract_lower then (score + 10)%Z else score in
  score.

Section Scorer.

(** The clock and the ISO-8601 parser of the standard library:
    [days_old iso] is [(datetime.now(d.tzinfo) - d).days] for
    [d = datetime.fromisoformat(iso)], and [None] when that raises. *)
Variable days_old : string -> option Z.

(** The [try] block; whatever it raises is swallowed by the bare
    [except] and leaves [score] as it was. *)
Definition recency_bonus (paper : gmap string field) (score : Z) : Z :=
  match str_field paper "published" with
  | Some published =>
      match days_old (replace_Z published) with
      | Some days =>
          if (days <? 7)%Z then (score + 15)%Z
          else if (days <? 30)%Z then (score + 10)%Z
          else score
      | None => score
      end
  | None => score
  end.

(** [None] stands for the exception raised by [paper["title"].lower()]
    or [paper["abstract"].lower()]. *)
Definition calculate_relevance_score (paper : gmap string field)
    (user_keywords : list string) : option Z :=
  match str_field paper "title" with
  | None => None
  | Some title =>
      let title_lower := str_lower title in
      match str_field paper "abstract" with
      | None => None
      | Some abstract =>
          let abstract_lower := str_lower abstract in
          let score :=
            fold_left (keyword_score title_lower abstract_lower)
                      user_keywords 0%Z in
          let score := recency_bonus paper score in
          Some (Z.min score 100)
      end
  end.

End Scorer.

(** ** Section 5 of the source: [AgentEvaluator.evaluate_performance] *)

Definition Qlt_bool (x y : Q) : bool := negb (Qle_bool y x).

(** [metrics] holds numbers under string keys; the result maps "speed" and
    "reliability" to their labels. *)
Definition evaluate_performance (metrics : gmap string Q) : gmap string string :=
  let ratings : gmap string string := ∅ in
  let avg_time := default 999%Q (metrics !! "average_processing_time_seconds") in
  let ratings :=
    if Qlt_bool avg_time 5 then <["speed" := "Excellent"]> ratings
    else if Qlt_bool avg_time 15 then <["speed" := "Good"]> ratings
    else if Qlt_bool avg_time 30 then <["speed" := "Acceptable"]> ratings
    else <["speed" := "Needs Improvement"]> ratings in
  let success_rate := default 0%Q (metrics !! "success_rate_percent") in
  let ratings :=
    if Qle_bool 95 success_rate then <["reliability" := "Excellent"]> ratings
    else if Qle_bool 85 success_rate then <["reliability" := "Good"]> ratings
    else if Qle_bool 70 success_rate then <["reliability" := "Acceptable"]> ratings
    else <["reliability" := "Needs Improvement"]> ratings in
  ratings.

(** ** Vocabulary of the proofs *)

(** The loop invariant of the second loop: [seen] holds the members of
    [unique_equations], which has no duplicates. *)
Definition seen_tracks (seen : gset string) (unique_equations : list string) : Prop :=
  NoDup unique_equations /\ forall eq, eq ∈ seen <-> eq ∈ unique_equations.

(** ** Section 5 of the source: the other two evaluators *)

Section Formatting.

(** [repr] of a list of strings, as an f-string prints a list-valued
    field; the text itself is the standard library's business. *)
Variable repr_list : list string -> string.

(** [f"{value}"] *)
Definition format_field (value : field) : string :=
  match value with
  | Str s => s
  | StrList l => repr_list l
  end.

(** [f"{paper['title']} {paper['abstract']}".lower()]; [None] is the
    [KeyError] of a missing key. *)
Definition paper_text (paper : gmap string field) : option string :=
  match paper !! "title" with
  | None => None
  | Some title =>
      match paper !! "abstract" with
      | None => None
      | Some abstract =>
          Some (str_lower (format_field title +:+ " " +:+ format_field abstract))
      end
  end.

(** [any(keyword.lower() in text for keyword in query_keywords)] *)
Definition any_keyword_in (text : string) (query_keywords : list string) : bool :=
  existsb (fun keyword => str_contains (str_lower keyword) text) query_keywords.

(** The loop of [evaluate_retrieval_quality], from a given
    [relevant_count]. *)
Fixpoint count_relevant (papers : list (gmap string field))
    (query_keywords : list string) (relevant_count : Z) : option Z :=
  match papers with
  | [] => Some relevant_count
  | paper :: rest =>
      match paper_text paper with
      | None => None
      | Some text =>
          count_relevant rest query_keywords
            (if any_keyword_in text query_keywords
             then (relevant_count + 1)%Z else relevant_count)
      end
  end.

(** [AgentEvaluator.evaluate_retrieval_quality] *)
Definition evaluate_retrieval_quality (papers : list (gmap string field))
    (query_keywords : list string) : option Q :=
  match papers with
  | [] => Some 0%Q
  | _ :: _ =>
      match count_relevant papers query_keywords 0%Z with
      | None => None
      | Some relevant_count =>
          Some (inject_Z relevant_count
                / inject_Z (Z.of_nat (List.length papers)) * 100)%Q
      end
  end.

End Formatting.

(** [any(x in summary.lower() for x in words)] *)
Definition any_word_in (words : list string) (lowered : string) : bool :=
  existsb (fun x => str_contains x lowered) words.

(** [AgentEvaluator.evaluate_summary_completeness] *)
Definition evaluate_summary_completeness (summary : string) : gmap string bool :=
  <["executive_summary" := any_word_in ["summary"; "overview"] (str_lower summary)]>
  (<["top_papers" := str_contains "paper" (str_lower summary)]>
  (<["trends" := any_word_in ["trend"; "theme"; "pattern"] (str_lower summary)]>
  (<["recommendations" :=
       any_word_in ["recommend"; "suggestion"] (str_lower summary)]> ∅))).

(** ** Section 1 of the source: [fetch_arxiv_papers], from the response on *)

(** An [xml.etree.ElementTree.Element]: its tag (a namespaced tag reads
    [{uri}local]), its attributes, its text ([None] when the element has
    none) and its children in document order. *)
#[local] Unset Elimination Schemes.
Inductive element :=
| Element (tag : string) (attrib : gmap string string) (text : option string)
    (children : list element).
#[local] Set Elimination Schemes.

Definition elem_tag (e : element) : string :=
  match e with Element tag _ _ _ => tag end.
Definition elem_attrib (e : element) : gmap string string :=
  match e with Element _ attrib _ _ => attrib end.
Definition elem_text (e : element) : option string :=
  match e with Element _ _ text _ => text end.
Definition elem_children (e : element) : list element :=
  match e with Element _ _ _ children => children end.

(** A tag with the prefix [atom:] resolved through [namespace]. *)
Definition atom (local : string) : string :=
  "{http://www.w3.org/2005/Atom}" +:+ local.

(** [e.findall("atom:local", namespace)] and [e.find("atom:local",
    namespace)]: the children with that tag, and the first of them. *)
Definition elem_findall (e : element) (local : string) : list element :=
  List.filter (fun child => String.eqb (elem_tag child) (atom local))
              (elem_children e).

Definition elem_find (e : element) (local : string) : option element :=
  head (elem_findall e local).

(** [e.find("atom:local", namespace).text]: [None] when [find] returns
    [None] and the attribute access raises; [Some None] when the element is
    there with no text. *)
Definition find_text (e : element) (local : string) : option (option string) :=
  match elem_find e local with
  | None => None
  | Some child => Some (elem_text child)
  end.

(** The same used as a [str]: a method call on [None] raises too. *)
Definition find_str (e : element) (local : string) : option string :=
  match find_text e local with
  | Some (Some s) => Some s
  | _ => None
  end.

(** [s.split(sep)[-1]] for a non-empty [sep]: the separators are found from
    left to right, each search resuming after the separator found before; the
    last piece is what follows the last one, or [s] when there is none. *)
Fixpoint split_last_from (fuel : nat) (sep s : string) : string :=
  match fuel with
  | O => s
  | S fuel' =>
      match lazy_group sep s with
      | Some (_, after) => split_last_from fuel' sep after
      | None => s
      end
  end.

Definition split_last (sep s : string) : string :=
  split_last_from (String.length s) sep s.

(** The values a fetched paper holds: a [str], [None] (the text of an
    empty element), or a list of such. *)
Inductive pyvalue :=
| PyNone
| PyStr (s : string)
| PyList (items : list (option string)).

Definition py_text (text : option string) : pyvalue :=
  match text with
  | Some s => PyStr s
  | None => PyNone
  end.

(** [[f(x) for x in xs]] where [f] may raise. *)
Fixpoint comprehension {A B : Type} (f : A -> option B) (xs : list A)
    : option (list B) :=
  match xs with
  | [] => Some []
  | x :: rest =>
      match f x with
      | None => None
      | Some y =>
          match comprehension f rest with
          | None => None
          | Some ys => Some (y :: ys)
          end
      end
  end.

(** The body of the loop over the entries; [None] when it raises. *)
Definition entry_paper (entry : element) : option (gmap string pyvalue) :=
  match find_str entry "id" with
  | None => None
  | Some id_text =>
      let paper_id := split_last "/abs/" id_text in
      match find_str entry "title" with
      | None => None
      | Some title_text =>
          let title := str_strip title_text in
          match find_str entry "summary" with
          | None => None
          | Some summary_text =>
              let abstract := str_strip summary_text in
              match find_text entry "published" with
              | None => None
              | Some published =>
                  match comprehension (fun author => find_text author "name")
                                      (elem_findall entry "author") with
                  | None => None
                  | Some authors =>
                      match comprehension
                              (fun cat => elem_attrib cat !! "term")
                              (elem_findall entry "category") with
                      | None => None
                      | Some categories =>
                          Some (<["id" := PyStr paper_id]>
                               (<["title" := PyStr title]>
                               (<["authors" := PyList authors]>
                               (<["abstract" := PyStr abstract]>
                               (<["published" := py_text published]>
                               (<["arxiv_url" :=
                                    PyStr ("https://arxiv.org/abs/" +:+ paper_id)]>
                               (<["pdf_url" :=
                                    PyStr ("https://arxiv.org/pdf/" +:+ paper_id
                                           +:+ ".pdf")]>
                               (<["categories" :=
                                    PyList (List.map Some categories)]> ∅))))))))
                      end
                  end
              end
          end
      end
  end.

(** [fetch_arxiv_papers] from the parsed response on: [response] is the
    root element [ET.fromstring] returns, or [None] when building the
    request, the network or the XML parser raises.  Whatever is raised,
    there or in the loop, is caught and the result is the empty list. *)
Definition fetch_arxiv_papers (response : option element)
    : list (gmap string pyvalue) :=
  match response with
  | None => []
  | Some root =>
      match comprehension entry_paper (elem_findall root "entry") with
      | None => []
      | Some papers => papers
      end
  end.

(** A fetched paper as [calculate_relevance_score] sees it: the function
    reads "title", "abstract" and "published" and uses each as a [str];
    every other kind of value raises where a missing key does. *)
Definition scorer_view (paper : gmap string pyvalue) : gmap string field :=
  omap (fun value => match value with
                     | PyStr s => Some (Str s)
                     | _ => None
                     end) paper.

(** ** [test_agent.py]: [TestSuite] *)

Record TestSuite := mkTestSuite {
  results : list string;
  passed : Z;
  failed : Z
}.

(** [TestSuite.__init__] *)
Definition suite_init : TestSuite :=
  {| results := []; passed := 0; failed := 0 |}.

(** [TestSuite.test]: the new state and the value returned.  The two
    status marks are written as their UTF-8 bytes. *)
Definition test (name : string) (condition : bool) (message : string)
    (self : TestSuite) : TestSuite * bool :=
  let passed' := if condition then (passed self + 1)%Z else passed self in
  let failed' := if condition then failed self else (failed self + 1)%Z in
  let status := if condition then "✅ PASS" else "❌ FAIL" in
  let result := status +:+ " - " +:+ name in
  let result := if nonempty message then result +:+ ": " +:+ message else result in
  ({| results := (results self ++ [result])%list;
      passed := passed';
      failed := failed' |}, condition).

(** [s * n] *)
Fixpoint str_repeat (s : string) (n : nat) : string :=
  match n with
  | O => EmptyString
  | S n' => s +:+ str_repeat s n'
  end.

Section PrintSummary.

(** The text of [f"{(passed/total*100):.1f}"] for [total] other than 0: the
    division and the multiplication are those of doubles and the format
    rounds to one decimal, all three the standard library's. *)
Variable rate_text : Z -> Z -> string.

(** [TestSuite.print_summary]: the lines printed, one for each call of
    [print], and whether [ZeroDivisionError] was raised.  The division is
    evaluated after the three count lines are printed. *)
Definition print_summary (self : TestSuite) : list string * bool :=
  let printed :=
    [ String "010" EmptyString +:+ str_repeat "=" 80;
      "TEST SUMMARY";
      str_repeat "=" 80 ] in
  let total := (passed self + failed self)%Z in
  let printed :=
    (printed ++ [ "Total Tests: " +:+ pretty total;
                  "✅ Passed: " +:+ pretty (passed self);
                  "❌ Failed: " +:+ pretty (failed self) ])%list in
  if (total =? 0)%Z then (printed, true)
  else ((printed ++ [ "Success Rate: " +:+ rate_text (passed self) total +:+ "%";
                      str_repeat "=" 80 ])%list, false).

End PrintSummary.

(** A sequence of [test] calls on one suite. *)
Fixpoint run_tests (calls : list (string * bool * string)) (self : TestSuite)
    : TestSuite :=
  match calls with
  | [] => self
  | (name, condition, message) :: rest =>
      run_tests rest (fst (test name condition message self))
  end.

(** ** Vocabulary of the further proofs *)

(** The reading of the clock a callback carries. *)
Definition clock (c : callback) : Z :=
  match c with Before now => now | After now => now end.

(** Operations run one after the other, each given by the clock readings
    of its start and of its end: the callbacks they fire, and the seconds
    they take together. *)
Definition span_calls (spans : list (Z * Z)) : list callback :=
  List.flat_map (fun span => [Before (fst span); After (snd span)]) spans.

Definition spans_seconds (spans : list (Z * Z)) : Q :=
  fold_right (fun span acc => (total_seconds (snd span) (fst span) + acc)%Q)
             0%Q spans.

(** The condition a recorded [test] call was given. *)
Definition call_condition (call : string * bool * string) : bool := snd (fst call).


(** * Properties *)

(** ** [MetricsPlugin] *)

Lemma fire_failed_operations (c : callback) (self : MetricsPlugin) :
  failed_operations (fire c self) = failed_operations self.
Proof.
  destruct c as [now|now]; simpl; [reflexivity|].
  unfold after_agent_callback. destruct (start_time self); reflexivity.
Qed.

Lemma run_failed_operations (calls : list callback) (self : MetricsPlugin) :
  failed_operations (run calls self) = failed_operations self.
Proof.
  revert self. induction calls as [|c rest IH]; intros self; simpl.
  - reflexivity.
  - rewrite IH. apply fire_failed_operations.
Qed.

Lemma run_started_counts (calls : list callback) :
  forall self started,
    start_time self = Some started ->
    successful_operations (run calls self)
    = (successful_operations self
       + Z.of_nat (length (List.filter is_after calls)))%Z.
Proof.
  induction calls as [|c rest IH]; intros self started Hs; simpl.
  - lia.
  - destruct c as [now|now]; simpl.
    + rewrite (IH (before_agent_callback now self) now eq_refl). simpl. lia.
    + rewrite (IH _ started).
      * unfold after_agent_callback. rewrite Hs. simpl. lia.
      * unfold after_agent_callback. rewrite Hs. simpl. reflexivity.
Qed.

Lemma run_agent_calls (calls : list callback) :
  forall self,
    agent_calls (run calls self)
    = (agent_calls self + Z.of_nat (length (List.filter is_before calls)))%Z
    /\ papers_processed (run calls self) = papers_processed self.
Proof.
  induction calls as [|c rest IH]; intros self; simpl.
  - split; [lia|reflexivity].
  - destruct (IH (fire c self)) as [Ha Hp]. rewrite Ha, Hp.
    destruct c as [now|now]; simpl.
    + split; [lia|reflexivity].
    + unfold after_agent_callback. destruct (start_time self); simpl;
        split; try lia; reflexivity.
Qed.

Lemma run_successful_operations (calls : list callback) :
  successful_operations (run calls metrics_init)
  = Z.of_nat (length (List.filter is_after (skip_leading_ends calls))).
Proof.
  induction calls as [|c rest IH]; [reflexivity|].
  destruct c as [now|now].
  - simpl.
    rewrite (run_started_counts rest (before_agent_callback now metrics_init)
               now eq_refl).
    simpl. lia.
  - simpl. exact IH.
Qed.

Lemma round_half_even_comp (p q : Q) :
  (p == q)%Q -> round_half_even p = round_half_even q.
Proof.
  intros E. unfold round_half_even.
  rewrite (Qfloor_comp _ _ E).
  assert (Hc : (p - inject_Z (Qfloor q) ?= 1 # 2)%Q = (q - inject_Z (Qfloor q) ?= 1 # 2)%Q)
    by (rewrite E; reflexivity).
  rewrite Hc. reflexivity.
Qed.

Lemma round2_comp (p q : Q) : (p == q)%Q -> round2 p = round2 q.
Proof.
  intros E. unfold round2.
  rewrite (round_half_even_comp (p * 100) (q * 100)); [reflexivity|].
  rewrite E; reflexivity.
Qed.

(** C7. An end callback on an instance with no pending start timestamp
    returns (the model is a total function, nothing is raised) and leaves
    the instance as it was: [agent_calls], [papers_processed],
    [total_processing_time], [successful_operations], [failed_operations]
    and [start_time] all keep their values. *)
Theorem after_without_start_is_noop (now : Z) (self : MetricsPlugin) :
  start_time self = None ->
  after_agent_callback now self = self.
Proof.
  intros Hnone. unfold after_agent_callback. rewrite Hnone. reflexivity.
Qed.

Lemma after_without_start_is_noop_witness :
  start_time metrics_init = None
  /\ after_agent_callback 5 metrics_init = metrics_init.
Proof.
  split; [reflexivity|].
  apply (after_without_start_is_noop 5 metrics_init). reflexivity.
Defined.

(** C1, as the code has it.  An end callback that finds a start timestamp
    adds the time elapsed since that timestamp to [total_processing_time]
    and one to [successful_operations]; the other counters keep their
    values and the start timestamp stays in place.  A second end callback
    with no start in between therefore counts again, measured from the
    same start. *)
Theorem after_with_start_counts (now now' started : Z) (self : MetricsPlugin) :
  start_time self = Some started ->
  let ended := after_agent_callback now self in
  let again := after_agent_callback now' ended in
  total_processing_time ended
    = (total_processing_time self + total_seconds now started)%Q
  /\ successful_operations ended = (successful_operations self + 1)%Z
  /\ agent_calls ended = agent_calls self
  /\ papers_processed ended = papers_processed self
  /\ failed_operations ended = failed_operations self
  /\ start_time ended = Some started
  /\ total_processing_time again
       = (total_processing_time ended + total_seconds now' started)%Q
  /\ successful_operations again = (successful_operations self + 2)%Z.
Proof.
  intros Hs. cbv zeta. unfold after_agent_callback.
  rewrite Hs. simpl.
  repeat split; try reflexivity. lia.
Qed.

Lemma after_with_start_counts_witness :
  start_time (before_agent_callback 0 metrics_init) = Some 0%Z
  /\ successful_operations
       (after_agent_callback 3000000
          (after_agent_callback 2000000 (before_agent_callback 0 metrics_init)))
     = 2%Z.
Proof.
  split; [reflexivity|].
  apply (after_with_start_counts 2000000 3000000 0
           (before_agent_callback 0 metrics_init)).
  reflexivity.
Defined.

(** C1, as the spec words it, fails on a start followed by two ends: the
    first end finds the start timestamp and does not clear it, and the
    second end changes [successful_operations] and
    [total_processing_time]. *)
Lemma after_does_not_clear_start :
  let started := before_agent_callback 0 metrics_init in
  let ended := after_agent_callback 2000000 started in
  let again := after_agent_callback 3000000 ended in
  start_time started = Some 0%Z
  /\ start_time ended <> None
  /\ successful_operations again <> successful_operations ended
  /\ ~ (total_processing_time again == total_processing_time ended)%Q.
Proof.
  cbv zeta. split; [reflexivity|]. split; [discriminate|].
  split; [simpl; lia|]. vm_compute. discriminate.
Qed.

(** C2, as the code has it.  The state reached by a run from a fresh
    instance satisfies
    [successful_operations + failed_operations <= agent_calls + 1] exactly
    when the end callbacks that come after the first start callback are at
    most one more than the start callbacks. *)
Theorem operations_bound_iff (calls : list callback) :
  let self := run calls metrics_init in
  (successful_operations self + failed_operations self <= agent_calls self + 1)%Z
  <-> (length (List.filter is_after (skip_leading_ends calls))
       <= length (List.filter is_before calls) + 1)%nat.
Proof.
  cbv zeta.
  rewrite run_successful_operations.
  rewrite (run_failed_operations calls metrics_init).
  destruct (run_agent_calls calls metrics_init) as [Ha _]. rewrite Ha.
  simpl. lia.
Qed.

Lemma operations_bound_iff_witness :
  let self := run [Before 0; After 1000000; After 2000000] metrics_init in
  (successful_operations self + failed_operations self <= agent_calls self + 1)%Z.
Proof.
  apply (proj2 (operations_bound_iff [Before 0; After 1000000; After 2000000])).
  simpl. lia.
Defined.

(** C2, as the spec words it, fails: one start followed by three ends
    reaches [successful_operations = 3] with [agent_calls = 1]. *)
Lemma unpaired_run_breaks_bound :
  let self := run [Before 0; After 1000000; After 2000000; After 3000000]
                  metrics_init in
  ~ (successful_operations self + failed_operations self <= agent_calls self + 1)%Z.
Proof.
  cbv zeta. simpl. lia.
Qed.

(** C3.  Neither callback changes [failed_operations], so it is zero in
    every state reached from a fresh instance; and in every such state
    with [successful_operations > 0] the summary holds 100 under
    "success_rate_percent". *)
Theorem success_rate_is_100 :
  (forall c self, failed_operations (fire c self) = failed_operations self)
  /\ forall calls,
      let self := run calls metrics_init in
      failed_operations self = 0%Z
      /\ ((0 < successful_operations self)%Z ->
          exists rate,
            get_metrics_summary self !! "success_rate_percent" = Some rate
            /\ (rate == 100)%Q).
Proof.
  split; [exact fire_failed_operations|].
  intros calls. cbv zeta.
  pose proof (run_failed_operations calls metrics_init) as Hf. simpl in Hf.
  split; [exact Hf|].
  intros Hpos.
  unfold get_metrics_summary. rewrite Hf.
  repeat (rewrite lookup_insert_ne; [|discriminate]).
  rewrite lookup_insert_eq.
  eexists; split; [reflexivity|].
  set (n := successful_operations (run calls metrics_init)) in *.
  rewrite Z.add_0_r.
  destruct (Z.ltb_spec 0 n) as [_|Hle]; [|lia].
  rewrite (round2_comp _ 100).
  - reflexivity.
  - field. intros Hn. unfold Qeq in Hn. simpl in Hn. lia.
Qed.

Lemma success_rate_is_100_witness :
  (0 < successful_operations (run [Before 0; After 2000000] metrics_init))%Z
  /\ exists rate,
       get_metrics_summary (run [Before 0; After 2000000] metrics_init)
         !! "success_rate_percent" = Some rate
       /\ (rate == 100)%Q.
Proof.
  split; [reflexivity|].
  apply (proj2 success_rate_is_100 [Before 0; After 2000000]).
  reflexivity.
Defined.

(** ** [extract_latex_equations] *)

Lemma strip_prefix_length (p s rest : string) :
  strip_prefix p s = Some rest ->
  String.length s = String.length p + String.length rest.
Proof.
  revert s. induction p as [|a p IH]; intros s H; simpl in *.
  - congruence.
  - destruct s as [|b s]; [discriminate|].
    destruct (Ascii.eqb a b); [|discriminate].
    simpl. rewrite (IH _ H). reflexivity.
Qed.

Lemma lazy_group_length (close s group rest : string) :
  lazy_group close s = Some (group, rest) ->
  String.length s = String.length group + String.length close + String.length rest.
Proof.
  revert group. induction s as [|c s IH]; intros group H; simpl in H.
  - destruct (strip_prefix close "") eqn:E; [|discriminate].
    inversion H; subst. apply strip_prefix_length in E. simpl in *. lia.
  - destruct (strip_prefix close (String c s)) eqn:E.
    + inversion H; subst. apply strip_prefix_length in E. simpl in *. lia.
    + destruct (lazy_group close s) as [[g r]|] eqn:E'; [|discriminate].
      inversion H; subst. specialize (IH _ eq_refl). simpl. lia.
Qed.

Lemma match_here_shorter (open close s group rest : string) :
  open <> EmptyString ->
  match_here open close s = Some (group, rest) ->
  String.length rest < String.length s.
Proof.
  intros Hne H. unfold match_here in H.
  destruct (strip_prefix open s) as [body|] eqn:E; [|discriminate].
  apply strip_prefix_length in E. apply lazy_group_length in H.
  destruct open; [congruence|]. simpl in E. lia.
Qed.

(** The scan never runs out of steps: the length of the text is enough
    fuel, and more fuel changes nothing. *)
Lemma findall_from_enough (open close : string) :
  open <> EmptyString ->
  forall n m s,
    String.length s <= n -> String.length s <= m ->
    findall_from n open close s = findall_from m open close s.
Proof.
  intros Hne. induction n as [|n IH]; intros m s Hn Hm.
  - destruct s; [|simpl in Hn; lia]. destruct m; reflexivity.
  - destruct m as [|m].
    + destruct s; [reflexivity|simpl in Hm; lia].
    + simpl. destruct s as [|c s]; [reflexivity|].
      destruct (match_here open close (String c s)) as [[g r]|] eqn:E.
      * apply match_here_shorter in E; [|exact Hne].
        f_equal. apply IH; simpl in *; lia.
      * apply IH; simpl in *; lia.
Qed.

Lemma findall_enough_fuel (pattern : string * string) (text : string) (extra : nat) :
  In pattern patterns ->
  findall_from (String.length text + extra) (fst pattern) (snd pattern) text
  = findall pattern text.
Proof.
  intros Hin. unfold findall. apply findall_from_enough; [|lia|lia].
  simpl in Hin.
  destruct Hin as [<-|[<-|[<-|[<-|[]]]]]; discriminate.
Qed.

Lemma seen_tracks_start : seen_tracks ∅ [].
Proof.
  split; [constructor|]. intros eq. set_solver.
Qed.

Lemma seen_tracks_add (seen : gset string) (unique : list string) (eq : string) :
  seen_tracks seen unique -> eq ∉ seen ->
  seen_tracks ({[eq]} ∪ seen) (unique ++ [eq]).
Proof.
  intros [Hnd Hin] Hfresh. split.
  - apply NoDup_app. split; [exact Hnd|]. split.
    + intros x Hx Hx'. apply list_elem_of_singleton in Hx'. subst x.
      apply Hfresh, Hin, Hx.
    + apply NoDup_singleton.
  - intros x. rewrite elem_of_union, elem_of_singleton, elem_of_app,
      list_elem_of_singleton, Hin. tauto.
Qed.

Lemma unique_loop_spec (equations : list string) :
  forall seen unique,
    seen_tracks seen unique ->
    NoDup (unique_loop equations seen unique)
    /\ forall eq, eq ∈ unique_loop equations seen unique
                  <-> eq ∈ unique \/ eq ∈ equations.
Proof.
  induction equations as [|e rest IH]; intros seen unique Hinv; simpl.
  - split; [apply Hinv|]. intros eq. rewrite elem_of_nil. tauto.
  - destruct (decide (e ∈ seen)) as [Hseen|Hfresh].
    + destruct (IH _ _ Hinv) as [Hnd Hin]. split; [exact Hnd|].
      intros eq. rewrite Hin, elem_of_cons.
      destruct Hinv as [_ Hs]. apply Hs in Hseen.
      split; [tauto|]. intros [H|[->|H]]; tauto.
    + destruct (IH _ _ (seen_tracks_add _ _ _ Hinv Hfresh)) as [Hnd Hin].
      split; [exact Hnd|].
      intros eq. rewrite Hin, elem_of_app, list_elem_of_singleton, elem_of_cons.
      tauto.
Qed.

Lemma unique_loop_snoc (equations : list string) (last : string) :
  forall seen unique,
    seen_tracks seen unique ->
    unique_loop (equations ++ [last]) seen unique
    = if decide (last ∈ unique_loop equations seen unique)
      then unique_loop equations seen unique
      else (unique_loop equations seen unique ++ [last])%list.
Proof.
  induction equations as [|e rest IH]; intros seen unique Hinv; simpl.
  - destruct Hinv as [_ Hs].
    destruct (decide (last ∈ seen)) as [H|H], (decide (last ∈ unique)) as [H'|H'];
      try reflexivity; exfalso; apply Hs in H || apply Hs in H'; contradiction.
  - destruct (decide (e ∈ seen)) as [Hseen|Hfresh].
    + apply IH, Hinv.
    + apply IH, seen_tracks_add; assumption.
Qed.

Lemma equations_of_order (text : string) :
  equations_of text
  = (stripped (findall ("$$", "$$") text)
     ++ stripped (findall ("$", "$") text)
     ++ stripped (findall ("\begin{equation}", "\end{equation}") text)
     ++ stripped (findall ("\begin{align}", "\end{align}") text))%list.
Proof.
  unfold equations_of, patterns. simpl. rewrite app_nil_r. reflexivity.
Qed.

(** C5.  On "$$a=b$$ and $c=d$" the result is ["a=b"; "c=d"]: the display
    pattern contributes "a=b", the inline pattern contributes "c=d" after
    it, the matches of the four patterns are merged in the order the
    patterns are declared, and the result has no duplicates. *)
Theorem extract_display_then_inline :
  extract_latex_equations "$$a=b$$ and $c=d$" = ["a=b"; "c=d"]
  /\ stripped (findall ("$$", "$$") "$$a=b$$ and $c=d$") = ["a=b"]
  /\ stripped (findall ("$", "$") "$$a=b$$ and $c=d$") = ["c=d"]
  /\ (forall text,
        equations_of text
        = (stripped (findall ("$$", "$$") text)
           ++ stripped (findall ("$", "$") text)
           ++ stripped (findall ("\begin{equation}", "\end{equation}") text)
           ++ stripped (findall ("\begin{align}", "\end{align}") text))%list)
  /\ NoDup (extract_latex_equations "$$a=b$$ and $c=d$").
Proof.
  split; [vm_compute; reflexivity|].
  split; [vm_compute; reflexivity|].
  split; [vm_compute; reflexivity|].
  split; [exact equations_of_order|].
  apply (unique_loop_spec _ ∅ [] seen_tracks_start).
Qed.

(** C6.  For every text the result has no duplicates; it holds exactly the
    strings of the merged candidate list; a candidate is appended when it
    is seen for the first time and skipped afterwards, so the order is that
    of first occurrence; and "$x$ $x$" gives ["x"]. *)
Theorem extract_no_duplicates :
  (forall text, NoDup (extract_latex_equations text))
  /\ (forall text eq, eq ∈ extract_latex_equations text <-> eq ∈ equations_of text)
  /\ unique_equations_of [] = []
  /\ (forall equations eq,
        unique_equations_of (equations ++ [eq])
        = if decide (eq ∈ equations) then unique_equations_of equations
          else (unique_equations_of equations ++ [eq])%list)
  /\ extract_latex_equations "$x$ $x$" = ["x"].
Proof.
  split; [|split; [|split; [|split]]].
  - intros text. apply (unique_loop_spec _ ∅ [] seen_tracks_start).
  - intros text eq. unfold extract_latex_equations, unique_equations_of.
    rewrite (proj2 (unique_loop_spec _ ∅ [] seen_tracks_start)).
    rewrite elem_of_nil. tauto.
  - reflexivity.
  - intros equations eq. unfold unique_equations_of.
    rewrite (unique_loop_snoc _ _ ∅ [] seen_tracks_start).
    pose proof (proj2 (unique_loop_spec equations ∅ [] seen_tracks_start) eq) as Hin.
    rewrite elem_of_nil in Hin.
    destruct (decide (eq ∈ unique_loop equations ∅ [])) as [H|H],
             (decide (eq ∈ equations)) as [H'|H']; try reflexivity; tauto.
  - vm_compute. reflexivity.
Qed.

(** ** [calculate_relevance_score] *)

Lemma keyword_score_shift (title_lower abstract_lower : string) (score : Z)
    (keyword : string) :
  keyword_score title_lower abstract_lower score keyword
  = (score + keyword_score title_lower abstract_lower 0 keyword)%Z.
Proof.
  unfold keyword_score.
  destruct (str_contains _ title_lower), (str_contains _ abstract_lower); lia.
Qed.

Lemma keyword_score_range (title_lower abstract_lower : string) (keyword : string) :
  (0 <= keyword_score title_lower abstract_lower 0 keyword <= 30)%Z.
Proof.
  unfold keyword_score.
  destruct (str_contains _ title_lower), (str_contains _ abstract_lower); lia.
Qed.

Lemma keywords_score_nonneg (title_lower abstract_lower : string)
    (user_keywords : list string) :
  forall score,
    (0 <= score)%Z ->
    (0 <= fold_left (keyword_score title_lower abstract_lower) user_keywords score)%Z.
Proof.
  induction user_keywords as [|k rest IH]; intros score H; simpl; [exact H|].
  apply IH. rewrite keyword_score_shift.
  pose proof (keyword_score_range title_lower abstract_lower k). lia.
Qed.

Section ScorerFacts.

Variable days_old : string -> option Z.

Lemma recency_bonus_range (paper : gmap string field) (score : Z) :
  (score <= recency_bonus days_old paper score <= score + 15)%Z.
Proof.
  unfold recency_bonus.
  destruct (str_field paper "published") as [published|]; [|lia].
  destruct (days_old _) as [days|]; [|lia].
  destruct (days <? 7)%Z; [lia|]. destruct (days <? 30)%Z; lia.
Qed.

Lemma recency_bonus_mono (paper : gmap string field) (score score' : Z) :
  (score <= score')%Z ->
  (recency_bonus days_old paper score <= recency_bonus days_old paper score')%Z.
Proof.
  intros H. unfold recency_bonus.
  destruct (str_field paper "published") as [published|]; [|lia].
  destruct (days_old _) as [days|]; [|lia].
  destruct (days <? 7)%Z; [lia|]. destruct (days <? 30)%Z; lia.
Qed.

(** C4.  For a paper whose "title" and "abstract" are strings and any list
    of keywords, the call returns a score, and the score lies between 0
    and 100. *)
Theorem score_in_0_100 (paper : gmap string field) (user_keywords : list string)
    (title abstract : string) :
  paper !! "title" = Some (Str title) ->
  paper !! "abstract" = Some (Str abstract) ->
  exists score,
    calculate_relevance_score days_old paper user_keywords = Some score
    /\ (0 <= score <= 100)%Z.
Proof.
  intros Ht Ha. unfold calculate_relevance_score, str_field.
  rewrite Ht, Ha. eexists; split; [reflexivity|].
  pose proof (keywords_score_nonneg (str_lower title) (str_lower abstract)
                user_keywords 0%Z (Z.le_refl 0)) as Hk.
  pose proof (recency_bonus_range paper
                (fold_left (keyword_score (str_lower title) (str_lower abstract))
                           user_keywords 0%Z)) as Hr.
  lia.
Qed.

(** C9.  At one reading of the clock, for a paper whose "title" and
    "abstract" are strings, a keyword appended to the list never lowers
    the score. *)
Theorem score_monotone_in_keywords (paper : gmap string field)
    (user_keywords : list string) (keyword title abstract : string) :
  paper !! "title" = Some (Str title) ->
  paper !! "abstract" = Some (Str abstract) ->
  exists score score',
    calculate_relevance_score days_old paper user_keywords = Some score
    /\ calculate_relevance_score days_old paper (user_keywords ++ [keyword])
       = Some score'
    /\ (score <= score')%Z.
Proof.
  intros Ht Ha. unfold calculate_relevance_score, str_field.
  rewrite Ht, Ha. do 2 eexists. split; [reflexivity|]. split; [reflexivity|].
  rewrite fold_left_app. simpl.
  apply Z.min_le_compat_r, recency_bonus_mono.
  rewrite keyword_score_shift.
  pose proof (keyword_score_range (str_lower title) (str_lower abstract) keyword).
  lia.
Qed.

End ScorerFacts.

Lemma score_in_0_100_witness :
  exists score,
    calculate_relevance_score (fun _ => Some 3%Z)
      (<["title" := Str "Quantum Entanglement in Superconducting Qubits"]>
       (<["abstract" := Str "We study entanglement generation in quantum computing systems."]>
       (<["published" := Str "2024-01-01T00:00:00Z"]> ∅)))
      ["entanglement"; "quantum"] = Some score
    /\ (0 <= score <= 100)%Z.
Proof.
  apply (score_in_0_100 (fun _ => Some 3%Z) _ _
           "Quantum Entanglement in Superconducting Qubits"
           "We study entanglement generation in quantum computing systems.");
    reflexivity.
Defined.

Lemma score_monotone_in_keywords_witness :
  exists score score',
    calculate_relevance_score (fun _ => None)
      (<["title" := Str "Quantum Entanglement"]>
       (<["abstract" := Str "We study quantum systems"]> ∅))
      ["quantum"] = Some score
    /\ calculate_relevance_score (fun _ => None)
         (<["title" := Str "Quantum Entanglement"]>
          (<["abstract" := Str "We study quantum systems"]> ∅))
         (["quantum"] ++ ["entanglement"]) = Some score'
    /\ (score <= score')%Z.
Proof.
  apply (score_monotone_in_keywords (fun _ => None) _ _ _
           "Quantum Entanglement" "We study quantum systems");
    reflexivity.
Defined.

(** C10.  The score counts every occurrence of a keyword: a paper with
    "quantum" in its title and abstract scores 60 on the keyword list
    ["quantum"; "quantum"] and 30 on that list with the duplicate removed,
    whatever the clock; and in general what a keyword adds does not
    depend on the score reached before it. *)
Theorem score_counts_duplicates :
  (forall days_old,
     let paper : gmap string field :=
       <["title" := Str "Quantum Entanglement"]>
       (<["abstract" := Str "We study quantum systems"]> ∅) in
     calculate_relevance_score days_old paper ["quantum"; "quantum"] = Some 60%Z
     /\ calculate_relevance_score days_old paper
          (remove_dups ["quantum"; "quantum"]) = Some 30%Z)
  /\ remove_dups ["quantum"; "quantum"] = ["quantum"]
  /\ (forall title_lower abstract_lower score keyword,
        keyword_score title_lower abstract_lower
          (keyword_score title_lower abstract_lower score keyword) keyword
        = (score + 2 * keyword_score title_lower abstract_lower 0 keyword)%Z).
Proof.
  split; [|split].
  - intros days_old. cbv zeta. split; vm_compute; reflexivity.
  - vm_compute. reflexivity.
  - intros t a s k. rewrite (keyword_score_shift t a (keyword_score t a s k)).
    rewrite (keyword_score_shift t a s). lia.
Qed.

(** ** [evaluate_performance] *)

Lemma Qlt_bool_true (x y : Q) : Qlt_bool x y = true <-> (x < y)%Q.
Proof.
  unfold Qlt_bool. rewrite negb_true_iff.
  destruct (Qle_bool y x) eqn:E.
  - apply Qle_bool_iff in E. split; [discriminate|]. intros H.
    exfalso. apply (Qlt_not_le _ _ H E).
  - split; [intros _|reflexivity]. apply Qnot_le_lt. intros H.
    apply Qle_bool_iff in H. congruence.
Qed.

Lemma Qlt_bool_false (x y : Q) : Qlt_bool x y = false <-> (y <= x)%Q.
Proof.
  unfold Qlt_bool. rewrite negb_false_iff. apply Qle_bool_iff.
Qed.

Lemma Qle_bool_false (x y : Q) : Qle_bool x y = false <-> (y < x)%Q.
Proof.
  pose proof (Qlt_bool_true y x) as H. unfold Qlt_bool in H.
  rewrite negb_true_iff in H. exact H.
Qed.

Ltac rating_cases :=
  repeat match goal with
    | |- context [Qlt_bool ?x ?y] =>
        let E := fresh "E" in
        destruct (Qlt_bool x y) eqn:E;
        [apply Qlt_bool_true in E | apply Qlt_bool_false in E]
    | |- context [Qle_bool ?x ?y] =>
        let E := fresh "E" in
        destruct (Qle_bool x y) eqn:E;
        [apply Qle_bool_iff in E | apply Qle_bool_false in E]
    end.

Lemma speed_rating (metrics : gmap string Q) :
  let avg_time := default 999%Q (metrics !! "average_processing_time_seconds") in
  let speed := evaluate_performance metrics !! "speed" in
  ((avg_time < 5)%Q -> speed = Some "Excellent")
  /\ ((5 <= avg_time)%Q -> (avg_time < 15)%Q -> speed = Some "Good")
  /\ ((15 <= avg_time)%Q -> (avg_time < 30)%Q -> speed = Some "Acceptable")
  /\ ((30 <= avg_time)%Q -> speed = Some "Needs Improvement").
Proof.
  cbv zeta. unfold evaluate_performance.
  set (t := default 999%Q (metrics !! "average_processing_time_seconds")).
  set (r := default 0%Q (metrics !! "success_rate_percent")).
  repeat split; intros; rating_cases; try lra;
    rewrite lookup_insert_ne by discriminate; apply lookup_insert_eq.
Qed.

Lemma reliability_rating (metrics : gmap string Q) :
  let success_rate := default 0%Q (metrics !! "success_rate_percent") in
  let reliability := evaluate_performance metrics !! "reliability" in
  ((95 <= success_rate)%Q -> reliability = Some "Excellent")
  /\ ((85 <= success_rate)%Q -> (success_rate < 95)%Q -> reliability = Some "Good")
  /\ ((70 <= success_rate)%Q -> (success_rate < 85)%Q ->
      reliability = Some "Acceptable")
  /\ ((success_rate < 70)%Q -> reliability = Some "Needs Improvement").
Proof.
  cbv zeta. unfold evaluate_performance.
  set (t := default 999%Q (metrics !! "average_processing_time_seconds")).
  set (r := default 0%Q (metrics !! "success_rate_percent")).
  repeat split; intros; rating_cases; try lra; apply lookup_insert_eq.
Qed.

(** C8.  With [avg_time] the number under "average_processing_time_seconds"
    (999 when the key is missing) and [success_rate] the number under
    "success_rate_percent" (0 when the key is missing): the speed rating is
    Excellent below 5, Good below 15, Acceptable below 30 and Needs
    Improvement from 30 on; the reliability rating is Excellent from 95 on,
    Good from 85 on, Acceptable from 70 on and Needs Improvement below 70.
    A dictionary that lacks a key is rated as the same dictionary with the
    default stored under that key.  Time 3 and rate 96 are rated Excellent
    and Excellent. *)
Theorem evaluate_performance_ratings :
  (forall metrics : gmap string Q,
     let avg_time := default 999%Q (metrics !! "average_processing_time_seconds") in
     let success_rate := default 0%Q (metrics !! "success_rate_percent") in
     let ratings := evaluate_performance metrics in
     ((avg_time < 5)%Q -> ratings !! "speed" = Some "Excellent")
     /\ ((5 <= avg_time)%Q -> (avg_time < 15)%Q -> ratings !! "speed" = Some "Good")
     /\ ((15 <= avg_time)%Q -> (avg_time < 30)%Q ->
         ratings !! "speed" = Some "Acceptable")
     /\ ((30 <= avg_time)%Q -> ratings !! "speed" = Some "Needs Improvement")
     /\ ((95 <= success_rate)%Q -> ratings !! "reliability" = Some "Excellent")
     /\ ((85 <= success_rate)%Q -> (success_rate < 95)%Q ->
         ratings !! "reliability" = Some "Good")
     /\ ((70 <= success_rate)%Q -> (success_rate < 85)%Q ->
         ratings !! "reliability" = Some "Acceptable")
     /\ ((success_rate < 70)%Q ->
         ratings !! "reliability" = Some "Needs Improvement"))
  /\ (forall metrics : gmap string Q,
        metrics !! "average_processing_time_seconds" = None ->
        evaluate_performance metrics
        = evaluate_performance
            (<["average_processing_time_seconds" := 999%Q]> metrics))
  /\ (forall metrics : gmap string Q,
        metrics !! "success_rate_percent" = None ->
        evaluate_performance metrics
        = evaluate_performance (<["success_rate_percent" := 0%Q]> metrics))
  /\ evaluate_performance
       (<["average_processing_time_seconds" := 3%Q]>
        (<["success_rate_percent" := 96%Q]> ∅))
     = <["speed" := "Excellent"]> (<["reliability" := "Excellent"]> ∅).
Proof.
  split; [|split; [|split]].
  - intros metrics. cbv zeta.
    pose proof (speed_rating metrics) as Hs.
    pose proof (reliability_rating metrics) as Hr.
    cbv zeta in Hs, Hr. tauto.
  - intros metrics Hnone. unfold evaluate_performance.
    rewrite lookup_insert_eq, lookup_insert_ne by discriminate.
    rewrite Hnone. reflexivity.
  - intros metrics Hnone. unfold evaluate_performance.
    rewrite lookup_insert_eq, lookup_insert_ne by discriminate.
    rewrite Hnone. reflexivity.
  - vm_compute. reflexivity.
Qed.

Lemma evaluate_performance_ratings_witness :
  evaluate_performance
    (<["average_processing_time_seconds" := 10.5%Q]>
     (<["success_rate_percent" := 95%Q]> ∅)) !! "speed" = Some "Good"
  /\ evaluate_performance
       (<["average_processing_time_seconds" := 10.5%Q]>
        (<["success_rate_percent" := 95%Q]> ∅)) !! "reliability" = Some "Excellent"
  /\ evaluate_performance (<["success_rate_percent" := 72%Q]> ∅) !! "speed"
     = Some "Needs Improvement"
  /\ evaluate_performance (<["success_rate_percent" := 72%Q]> ∅) !! "reliability"
     = Some "Acceptable"
  /\ evaluate_performance (<["success_rate_percent" := 72%Q]> ∅)
     = evaluate_performance
         (<["average_processing_time_seconds" := 999%Q]>
          (<["success_rate_percent" := 72%Q]> ∅)).
Proof.
  pose proof (proj1 evaluate_performance_ratings
                (<["average_processing_time_seconds" := 10.5%Q]>
                 (<["success_rate_percent" := 95%Q]> ∅))) as Htest.
  pose proof (proj1 evaluate_performance_ratings
                (<["success_rate_percent" := 72%Q]> ∅)) as Hpart.
  cbv zeta in Htest, Hpart.
  destruct Htest as (_ & Hgood & _ & _ & Hexc & _).
  destruct Hpart as (_ & _ & _ & Hslow & _ & _ & Hacc & _).
  split; [apply Hgood; vm_compute; congruence|].
  split; [apply Hexc; vm_compute; congruence|].
  split; [apply Hslow; vm_compute; congruence|].
  split; [apply Hacc; vm_compute; congruence|].
  apply (proj1 (proj2 evaluate_performance_ratings)). reflexivity.
Defined.

(** * Further properties *)

(** ** Strings *)

Lemma str_app_cons (c : ascii) (a b : string) :
  String c a +:+ b = String c (a +:+ b).
Proof. reflexivity. Qed.

Lemma str_app_nil_l (a : string) : "" +:+ a = a.
Proof. reflexivity. Qed.

Lemma str_app_assoc (a b c : string) : (a +:+ b) +:+ c = a +:+ (b +:+ c).
Proof.
  induction a as [|x a IH]; [reflexivity|].
  rewrite !str_app_cons, IH. reflexivity.
Qed.

Lemma str_app_nil_r (a : string) : a +:+ "" = a.
Proof.
  induction a as [|x a IH]; [reflexivity|].
  rewrite str_app_cons, IH. reflexivity.
Qed.

Lemma strip_prefix_app (p rest : string) : strip_prefix p (p +:+ rest) = Some rest.
Proof.
  induction p as [|a p IH]; [reflexivity|].
  rewrite str_app_cons. simpl. rewrite Ascii.eqb_refl. exact IH.
Qed.

Lemma strip_prefix_inv (p s rest : string) :
  strip_prefix p s = Some rest -> s = p +:+ rest.
Proof.
  revert s. induction p as [|a p IH]; intros s H; simpl in H.
  - rewrite str_app_nil_l. congruence.
  - destruct s as [|b s]; [discriminate|].
    destruct (Ascii.eqb a b) eqn:E; [|discriminate].
    apply Ascii.eqb_eq in E. subst b.
    rewrite str_app_cons, (IH _ H). reflexivity.
Qed.

(** [needle in hay] holds exactly when [hay] is some text, [needle], and
    some more text. *)
Lemma str_contains_iff (needle hay : string) :
  str_contains needle hay = true
  <-> exists before after, hay = before +:+ needle +:+ after.
Proof.
  split.
  - induction hay as [|c hay IH]; simpl; intros H.
    + destruct (strip_prefix needle "") as [rest|] eqn:E; [|discriminate].
      exists "", rest. rewrite str_app_nil_l. apply strip_prefix_inv, E.
    + destruct (strip_prefix needle (String c hay)) as [rest|] eqn:E.
      * exists "", rest. rewrite str_app_nil_l. apply strip_prefix_inv, E.
      * destruct (IH H) as (before & after & ->).
        exists (String c before), after. reflexivity.
  - intros (before & after & ->).
    induction before as [|c before IH].
    + rewrite str_app_nil_l.
      destruct (needle +:+ after) eqn:E; simpl;
        rewrite <- E, strip_prefix_app; reflexivity.
    + rewrite str_app_cons. simpl.
      destruct (strip_prefix needle (String c (before +:+ needle +:+ after)));
        [reflexivity|exact IH].
Qed.

Lemma str_contains_app (needle before hay after : string) :
  str_contains needle hay = true ->
  str_contains needle (before +:+ hay +:+ after) = true.
Proof.
  rewrite !str_contains_iff. intros (b & a & ->).
  exists (before +:+ b), (a +:+ after).
  rewrite !str_app_assoc. reflexivity.
Qed.

Lemma str_contains_trans (a b c : string) :
  str_contains a b = true -> str_contains b c = true -> str_contains a c = true.
Proof.
  intros Hab. rewrite (str_contains_iff b c). intros (before & after & ->).
  apply str_contains_app, Hab.
Qed.

Lemma str_contains_empty (hay : string) : str_contains "" hay = true.
Proof.
  apply str_contains_iff. exists "", hay. reflexivity.
Qed.

Lemma str_lower_app (a b : string) :
  str_lower (a +:+ b) = str_lower a +:+ str_lower b.
Proof.
  induction a as [|c a IH]; [reflexivity|].
  rewrite str_app_cons. simpl. rewrite IH. reflexivity.
Qed.

Lemma chr_lower_idem (c : ascii) : chr_lower (chr_lower c) = chr_lower c.
Proof.
  destruct c as [[] [] [] [] [] [] [] []]; vm_compute; reflexivity.
Qed.

Lemma str_lower_idem (s : string) : str_lower (str_lower s) = str_lower s.
Proof.
  induction s as [|c s IH]; simpl; [reflexivity|].
  rewrite chr_lower_idem, IH. reflexivity.
Qed.

Lemma lazy_group_inv (close s group after : string) :
  lazy_group close s = Some (group, after) ->
  s = group +:+ close +:+ after.
Proof.
  revert group. induction s as [|c s IH]; intros group H; simpl in H.
  - destruct (strip_prefix close "") eqn:E; [|discriminate].
    inversion H; subst. apply strip_prefix_inv in E. exact E.
  - destruct (strip_prefix close (String c s)) eqn:E.
    + inversion H; subst. apply strip_prefix_inv in E. exact E.
    + destruct (lazy_group close s) as [[g r]|] eqn:E'; [|discriminate].
      inversion H; subst. rewrite str_app_cons, <- (IH _ eq_refl). reflexivity.
Qed.

Lemma lazy_group_none (close s : string) :
  lazy_group close s = None <-> str_contains close s = false.
Proof.
  induction s as [|c s IH]; simpl.
  - destruct (strip_prefix close ""); split; congruence.
  - destruct (strip_prefix close (String c s)); [split; congruence|].
    rewrite <- IH. destruct (lazy_group close s) as [[g r]|]; split; congruence.
Qed.

(** The lazy group is the shortest one: the closing literal does not
    occur inside it. *)
Lemma lazy_group_shortest (close s group after : string) :
  close <> "" ->
  lazy_group close s = Some (group, after) ->
  str_contains close group = false.
Proof.
  intros Hne. revert group. induction s as [|c s IH]; intros group H; simpl in H.
  - destruct (strip_prefix close "") eqn:E; [|discriminate].
    inversion H; subst. destruct close; [congruence|reflexivity].
  - destruct (strip_prefix close (String c s)) as [r0|] eqn:E.
    + inversion H; subst. destruct close; [congruence|reflexivity].
    + destruct (lazy_group close s) as [[g r]|] eqn:E'; [|discriminate].
      inversion H; subst. simpl.
      destruct (strip_prefix close (String c g)) as [r1|] eqn:E1.
      * exfalso. apply strip_prefix_inv in E1.
        apply lazy_group_inv in E'. subst s.
        rewrite <- str_app_cons, E1, str_app_assoc, strip_prefix_app in E.
        discriminate.
      * apply (IH _ eq_refl).
Qed.

(** ** [str.strip] *)

Lemma str_lstrip_length (s : string) :
  String.length (str_lstrip s) <= String.length s.
Proof.
  induction s as [|c s IH]; simpl; [lia|].
  destruct (isspace c); simpl; lia.
Qed.

Lemma str_lstrip_head (s : string) (c : ascii) (rest : string) :
  str_lstrip s = String c rest -> isspace c = false.
Proof.
  induction s as [|d s IH]; simpl; [discriminate|].
  destruct (isspace d) eqn:E; [exact IH|].
  intros H. inversion H; subst. exact E.
Qed.

Lemma str_lstrip_idem (s : string) : str_lstrip (str_lstrip s) = str_lstrip s.
Proof.
  destruct (str_lstrip s) as [|c rest] eqn:E; [reflexivity|].
  simpl. rewrite (str_lstrip_head _ _ _ E). reflexivity.
Qed.

Lemma str_rstrip_idem (s : string) : str_rstrip (str_rstrip s) = str_rstrip s.
Proof.
  induction s as [|c s IH]; simpl; [reflexivity|].
  destruct (str_rstrip s) as [|d kept] eqn:E.
  - destruct (isspace c) eqn:Ec; simpl; [reflexivity|]. rewrite Ec. reflexivity.
  - simpl in IH |- *. rewrite IH. reflexivity.
Qed.

Lemma str_rstrip_keeps_head (c : ascii) (rest : string) :
  isspace c = false ->
  exists kept, str_rstrip (String c rest) = String c kept.
Proof.
  intros Hc. simpl. destruct (str_rstrip rest) as [|d kept].
  - rewrite Hc. eauto.
  - eauto.
Qed.

Lemma str_strip_lstrip (s : string) : str_lstrip (str_strip s) = str_strip s.
Proof.
  unfold str_strip. destruct (str_lstrip s) as [|c rest] eqn:E; [reflexivity|].
  pose proof (str_lstrip_head _ _ _ E) as Hc.
  destruct (str_rstrip_keeps_head c rest Hc) as [kept ->].
  simpl. rewrite Hc. reflexivity.
Qed.

Lemma str_strip_rstrip (s : string) : str_rstrip (str_strip s) = str_strip s.
Proof.
  unfold str_strip. apply str_rstrip_idem.
Qed.

Lemma str_strip_idem (s : string) : str_strip (str_strip s) = str_strip s.
Proof.
  unfold str_strip at 1. rewrite str_strip_lstrip. apply str_strip_rstrip.
Qed.

Lemma str_lstrip_suffix (s : string) : exists ws, s = ws +:+ str_lstrip s.
Proof.
  induction s as [|c s [ws IH]]; simpl.
  - exists "". reflexivity.
  - destruct (isspace c).
    + exists (String c ws). rewrite str_app_cons, <- IH. reflexivity.
    + exists "". reflexivity.
Qed.

Lemma str_rstrip_prefix (s : string) : exists ws, s = str_rstrip s +:+ ws.
Proof.
  induction s as [|c s [ws IH]]; simpl.
  - exists "". reflexivity.
  - destruct (str_rstrip s) as [|d kept].
    + destruct (isspace c).
      * exists (String c s). reflexivity.
      * exists s. reflexivity.
    + exists ws. rewrite str_app_cons, <- IH. reflexivity.
Qed.

(** What [strip] returns occurs in its argument. *)
Lemma str_strip_occurs (s : string) : str_contains (str_strip s) s = true.
Proof.
  apply str_contains_iff. unfold str_strip.
  destruct (str_lstrip_suffix s) as [ws Hl].
  destruct (str_rstrip_prefix (str_lstrip s)) as [ws' Hr].
  exists ws, ws'. rewrite <- Hr. exact Hl.
Qed.

(** ** [re.findall] on the four patterns *)

Lemma match_here_inv (open close s group after : string) :
  match_here open close s = Some (group, after) ->
  s = open +:+ group +:+ close +:+ after.
Proof.
  unfold match_here. intros H.
  destruct (strip_prefix open s) as [body|] eqn:E; [|discriminate].
  apply strip_prefix_inv in E. apply lazy_group_inv in H. congruence.
Qed.

Lemma str_contains_later (needle before hay : string) :
  str_contains needle hay = true ->
  str_contains needle (before +:+ hay) = true.
Proof.
  intros H. rewrite <- (str_app_nil_r hay). apply str_contains_app, H.
Qed.

(** Every group [findall] returns stands in the text between the opening
    and the closing literal, and does not hold the closing literal. *)
Lemma findall_from_sound (open close : string) (fuel : nat) :
  forall s group,
    In group (findall_from fuel open close s) ->
    str_contains (open +:+ group +:+ close) s = true
    /\ (close <> "" -> str_contains close group = false).
Proof.
  induction fuel as [|fuel IH]; intros s group Hin; simpl in Hin; [contradiction|].
  destruct s as [|c s]; [contradiction|].
  destruct (match_here open close (String c s)) as [[g after]|] eqn:E.
  - pose proof (match_here_inv _ _ _ _ _ E) as Hs.
    destruct Hin as [<-|Hin].
    + split.
      * apply str_contains_iff. exists "", after.
        rewrite str_app_nil_l, Hs, !str_app_assoc. reflexivity.
      * intros Hne. unfold match_here in E.
        destruct (strip_prefix open (String c s)); [|discriminate].
        eapply lazy_group_shortest; eassumption.
    + destruct (IH _ _ Hin) as [Hc Hshort]. split; [|exact Hshort].
      rewrite Hs.
      replace (open +:+ g +:+ close +:+ after)
        with ((open +:+ g +:+ close) +:+ after)
        by (rewrite !str_app_assoc; reflexivity).
      apply str_contains_later, Hc.
  - destruct (IH _ _ Hin) as [Hc Hshort]. split; [|exact Hshort].
    change (String c s) with (String c "" +:+ s).
    apply str_contains_later, Hc.
Qed.

Lemma In_equations_of (text eq : string) :
  In eq (equations_of text)
  <-> exists pattern group,
        In pattern patterns /\ In group (findall pattern text)
        /\ eq = str_strip group /\ eq <> "".
Proof.
  unfold equations_of, stripped. rewrite in_flat_map. split.
  - intros (pattern & Hp & Hin). apply in_map_iff in Hin.
    destruct Hin as (group & <- & Hf). apply filter_In in Hf.
    destruct Hf as [Hg Hne]. exists pattern, group.
    repeat split; try assumption.
    destruct (str_strip group); [discriminate|congruence].
  - intros (pattern & group & Hp & Hg & -> & Hne).
    exists pattern. split; [exact Hp|].
    apply in_map_iff. exists group. split; [reflexivity|].
    apply filter_In. split; [exact Hg|].
    destruct (str_strip group); [congruence|reflexivity].
Qed.

Lemma In_extract (text eq : string) :
  In eq (extract_latex_equations text) <-> In eq (equations_of text).
Proof.
  unfold extract_latex_equations, unique_equations_of.
  rewrite <- !list_elem_of_In.
  rewrite (proj2 (unique_loop_spec _ ∅ [] seen_tracks_start)).
  rewrite elem_of_nil. tauto.
Qed.

(** X1.  Every equation returned is non-empty and carries no white space
    at either end: stripping it again changes nothing. *)
Theorem extract_equations_trimmed (text eq : string) :
  In eq (extract_latex_equations text) ->
  eq <> "" /\ str_strip eq = eq /\ str_lstrip eq = eq /\ str_rstrip eq = eq.
Proof.
  intros Hin. apply In_extract, In_equations_of in Hin.
  destruct Hin as (pattern & group & _ & _ & -> & Hne).
  split; [exact Hne|]. split; [apply str_strip_idem|].
  split; [apply str_strip_lstrip|apply str_strip_rstrip].
Qed.

Lemma extract_equations_trimmed_witness :
  In "E = mc^2" (extract_latex_equations "Mass: $$  E = mc^2   $$ (Einstein)")
  /\ str_strip "E = mc^2" = "E = mc^2".
Proof.
  assert (Hin : In "E = mc^2"
                   (extract_latex_equations "Mass: $$  E = mc^2   $$ (Einstein)"))
    by (vm_compute; left; reflexivity).
  split; [exact Hin|].
  apply (extract_equations_trimmed _ _ Hin).
Defined.

(** X2.  Every equation returned comes from the text: it is the stripped
    form of a group that stands in the text between the two literals of
    one of the four patterns, the group does not hold the closing literal
    (the match is the shortest one), and the equation itself occurs in the
    text. *)
Theorem extract_equations_delimited (text eq : string) :
  In eq (extract_latex_equations text) ->
  exists open close group,
    In (open, close) patterns
    /\ eq = str_strip group
    /\ str_contains (open +:+ group +:+ close) text = true
    /\ str_contains close group = false
    /\ str_contains eq text = true.
Proof.
  intros Hin. apply In_extract, In_equations_of in Hin.
  destruct Hin as ([open close] & group & Hp & Hg & -> & Hne).
  unfold findall in Hg. simpl in Hg.
  destruct (findall_from_sound _ _ _ _ _ Hg) as [Hc Hshort].
  exists open, close, group. repeat split; try assumption.
  - apply Hshort. simpl in Hp.
    destruct Hp as [H|[H|[H|[H|[]]]]]; inversion H; discriminate.
  - eapply str_contains_trans; [apply str_strip_occurs|].
    eapply str_contains_trans; [|exact Hc].
    apply str_contains_iff. exists open, close. reflexivity.
Qed.

Lemma extract_equations_delimited_witness :
  exists open close group,
    In (open, close) patterns
    /\ "c=d" = str_strip group
    /\ str_contains (open +:+ group +:+ close) "$$a=b$$ and $ c=d $" = true
    /\ str_contains close group = false
    /\ str_contains "c=d" "$$a=b$$ and $ c=d $" = true.
Proof.
  apply (extract_equations_delimited "$$a=b$$ and $ c=d $" "c=d").
  vm_compute. right. left. reflexivity.
Defined.

Lemma findall_from_nil (open close : string) (fuel : nat) (s : string) :
  str_contains open s = false -> findall_from fuel open close s = [].
Proof.
  intros Hno. destruct (findall_from fuel open close s) as [|g l] eqn:E;
    [reflexivity|].
  destruct (findall_from_sound open close fuel s g) as [Hc _].
  { rewrite E. left. reflexivity. }
  assert (str_contains open s = true); [|congruence].
  eapply str_contains_trans; [|exact Hc].
  apply str_contains_iff. exists "", (g +:+ close). reflexivity.
Qed.

Lemma str_contains_false_trans (a b s : string) :
  str_contains a b = true -> str_contains a s = false ->
  str_contains b s = false.
Proof.
  intros Hab Hs. destruct (str_contains b s) eqn:E; [|reflexivity].
  rewrite (str_contains_trans _ _ _ Hab E) in Hs. discriminate.
Qed.

Lemma unique_equations_of_one (eq : string) : unique_equations_of [eq] = [eq].
Proof.
  unfold unique_equations_of. simpl.
  destruct (decide (eq ∈ (∅ : gset string))) as [H|H]; [|reflexivity].
  exfalso. set_solver.
Qed.

(** X3.  A text with no dollar sign and no "\begin{" holds no equation:
    the result is the empty list.  The empty text is such a text. *)
Theorem extract_plain_text (text : string) :
  str_contains "$" text = false ->
  str_contains "\begin{" text = false ->
  extract_latex_equations text = [].
Proof.
  intros Hd Hb. unfold extract_latex_equations.
  rewrite equations_of_order. unfold findall. simpl.
  rewrite (findall_from_nil "$$" "$$"), (findall_from_nil "$" "$"),
    (findall_from_nil "\begin{equation}"), (findall_from_nil "\begin{align}").
  - reflexivity.
  - apply (str_contains_false_trans "\begin{"); [reflexivity|exact Hb].
  - apply (str_contains_false_trans "\begin{"); [reflexivity|exact Hb].
  - exact Hd.
  - apply (str_contains_false_trans "$"); [reflexivity|exact Hd].
Qed.

Lemma extract_plain_text_witness :
  extract_latex_equations "" = []
  /\ extract_latex_equations "We study entanglement at 5 K \cite{x}." = [].
Proof.
  split.
  - apply (extract_plain_text ""); reflexivity.
  - apply (extract_plain_text "We study entanglement at 5 K \cite{x}.");
      reflexivity.
Defined.

Lemma str_contains_cons (needle : string) (c : ascii) (hay : string) :
  str_contains needle (String c hay)
  = match strip_prefix needle (String c hay) with
    | Some _ => true
    | None => str_contains needle hay
    end.
Proof. reflexivity. Qed.

Lemma strip_prefix_cons (a : ascii) (p : string) (b : ascii) (s : string) :
  strip_prefix (String a p) (String b s)
  = if Ascii.eqb a b then strip_prefix p s else None.
Proof. reflexivity. Qed.

Lemma lazy_group_cons (close : string) (c : ascii) (s : string) :
  lazy_group close (String c s)
  = match strip_prefix close (String c s) with
    | Some after => Some ("", after)
    | None =>
        match lazy_group close s with
        | Some (group, after) => Some (String c group, after)
        | None => None
        end
    end.
Proof. reflexivity. Qed.

Lemma findall_from_cons (fuel : nat) (open close : string) (c : ascii) (s : string) :
  findall_from (S fuel) open close (String c s)
  = match match_here open close (String c s) with
    | Some (group, after) => group :: findall_from fuel open close after
    | None => findall_from fuel open close s
    end.
Proof. reflexivity. Qed.

Lemma lazy_group_dollar (body after : string) :
  str_contains "$" body = false ->
  lazy_group "$" (body +:+ "$" +:+ after) = Some (body, after).
Proof.
  induction body as [|c body IH]; intros Hno.
  - reflexivity.
  - rewrite str_app_cons, lazy_group_cons, strip_prefix_cons.
    rewrite str_contains_cons, strip_prefix_cons in Hno.
    destruct (Ascii.eqb "$" c); [discriminate|].
    rewrite (IH Hno). reflexivity.
Qed.

Lemma no_double_dollar (body : string) :
  str_contains "$" body = false ->
  str_contains "$$" (body +:+ "$") = false.
Proof.
  induction body as [|c body IH]; intros Hno.
  - reflexivity.
  - rewrite str_app_cons, str_contains_cons, strip_prefix_cons.
    rewrite str_contains_cons, strip_prefix_cons in Hno.
    destruct (Ascii.eqb "$" c); [discriminate|].
    apply IH, Hno.
Qed.

(** X4.  A text that is one inline equation, a dollar sign, a body without
    dollar signs that is not all white space, and a dollar sign, gives
    exactly the stripped body (as long as no "\begin{" stands in it). *)
Theorem extract_single_inline (body : string) :
  str_contains "$" body = false ->
  str_contains "\begin{" ("$" +:+ body +:+ "$") = false ->
  str_strip body <> "" ->
  extract_latex_equations ("$" +:+ body +:+ "$") = [str_strip body].
Proof.
  intros Hd Hb Hne. unfold extract_latex_equations.
  rewrite equations_of_order. unfold findall. simpl fst. simpl snd.
  rewrite (findall_from_nil "$$" "$$"), (findall_from_nil "\begin{equation}"),
    (findall_from_nil "\begin{align}").
  - assert (Hin : findall_from (String.length ("$" +:+ body +:+ "$")) "$" "$"
                               ("$" +:+ body +:+ "$") = [body]).
    { rewrite str_app_cons, str_app_nil_l.
      change (String.length (String "$" (body +:+ "$")))
        with (S (String.length (body +:+ "$"))).
      rewrite findall_from_cons.
      unfold match_here. rewrite strip_prefix_cons, Ascii.eqb_refl.
      change (strip_prefix "" (body +:+ "$")) with (Some (body +:+ "$")).
      pose proof (lazy_group_dollar body "" Hd) as Hl.
      change ("$" +:+ "") with "$" in Hl. cbv iota beta. rewrite Hl.
      destruct (String.length (body +:+ "$")); reflexivity. }
    rewrite Hin.
    assert (Hs : stripped [body] = [str_strip body]).
    { unfold stripped. simpl.
      destruct (nonempty (str_strip body)) eqn:E; [reflexivity|].
      destruct (str_strip body); [congruence|discriminate]. }
    rewrite Hs. change (stripped []) with (@nil string).
    change ([] ++ [str_strip body] ++ [] ++ [])%list with [str_strip body].
    apply unique_equations_of_one.
  - apply (str_contains_false_trans "\begin{"); [reflexivity|exact Hb].
  - apply (str_contains_false_trans "\begin{"); [reflexivity|exact Hb].
  - destruct body as [|c body]; [exfalso; apply Hne; reflexivity|].
    rewrite str_app_cons, str_app_nil_l, str_app_cons.
    rewrite str_contains_cons, !strip_prefix_cons, Ascii.eqb_refl.
    pose proof Hd as Hd'.
    rewrite str_contains_cons, strip_prefix_cons in Hd'.
    destruct (Ascii.eqb "$" c) eqn:E; [discriminate|].
    rewrite <- str_app_cons. apply no_double_dollar, Hd.
Qed.

Lemma extract_single_inline_witness :
  extract_latex_equations ("$" +:+ "  H = \sum_i E_i  " +:+ "$")
  = [str_strip "  H = \sum_i E_i  "].
Proof.
  apply (extract_single_inline "  H = \sum_i E_i  ").
  - reflexivity.
  - reflexivity.
  - vm_compute. discriminate.
Defined.

(** ** [calculate_relevance_score], further *)

Lemma keyword_score_comm (title_lower abstract_lower : string) (score : Z)
    (k1 k2 : string) :
  keyword_score title_lower abstract_lower
    (keyword_score title_lower abstract_lower score k1) k2
  = keyword_score title_lower abstract_lower
      (keyword_score title_lower abstract_lower score k2) k1.
Proof.
  rewrite (keyword_score_shift _ _ (keyword_score _ _ score k1)).
  rewrite (keyword_score_shift _ _ (keyword_score _ _ score k2)).
  rewrite (keyword_score_shift _ _ score k1), (keyword_score_shift _ _ score k2).
  lia.
Qed.

Lemma keywords_score_perm (title_lower abstract_lower : string)
    (keywords keywords' : list string) :
  Permutation keywords keywords' ->
  forall score,
    fold_left (keyword_score title_lower abstract_lower) keywords score
    = fold_left (keyword_score title_lower abstract_lower) keywords' score.
Proof.
  induction 1 as [|k l l' _ IH|k1 k2 l|l l' l'' _ IH1 _ IH2]; intros score; simpl.
  - reflexivity.
  - apply IH.
  - rewrite keyword_score_comm. reflexivity.
  - rewrite IH1. apply IH2.
Qed.

Lemma keywords_score_count (title_lower abstract_lower : string)
    (keywords : list string) :
  forall score,
    fold_left (keyword_score title_lower abstract_lower) keywords score
    = (score
       + 20 * Z.of_nat (length (List.filter
                                  (fun k => str_contains (str_lower k) title_lower)
                                  keywords))
       + 10 * Z.of_nat (length (List.filter
                                  (fun k => str_contains (str_lower k) abstract_lower)
                                  keywords)))%Z.
Proof.
  induction keywords as [|k rest IH]; intros score; simpl; [lia|].
  rewrite IH. unfold keyword_score.
  destruct (str_contains (str_lower k) title_lower),
           (str_contains (str_lower k) abstract_lower); simpl length; lia.
Qed.

Lemma keywords_score_lower (title_lower abstract_lower : string)
    (keywords : list string) :
  forall score,
    fold_left (keyword_score title_lower abstract_lower)
              (List.map str_lower keywords) score
    = fold_left (keyword_score title_lower abstract_lower) keywords score.
Proof.
  induction keywords as [|k rest IH]; intros score; simpl; [reflexivity|].
  rewrite IH. unfold keyword_score. rewrite str_lower_idem. reflexivity.
Qed.

Section ScorerMore.

Variable days_old : string -> option Z.

Lemma recency_bonus_shift (paper : gmap string field) (score : Z) :
  recency_bonus days_old paper score
  = (score + recency_bonus days_old paper 0)%Z.
Proof.
  unfold recency_bonus.
  destruct (str_field paper "published") as [published|]; [|lia].
  destruct (days_old _) as [days|]; [|lia].
  destruct (days <? 7)%Z; [lia|]. destruct (days <? 30)%Z; lia.
Qed.

(** X5.  The score in closed form: 20 for every keyword of the list found
    in the title, 10 for every keyword found in the abstract (a keyword
    listed twice counts twice), the recency bonus, and the cap at 100. *)
Theorem score_closed_form (paper : gmap string field) (user_keywords : list string)
    (title abstract : string) :
  paper !! "title" = Some (Str title) ->
  paper !! "abstract" = Some (Str abstract) ->
  let in_title :=
    List.filter (fun k => str_contains (str_lower k) (str_lower title))
                user_keywords in
  let in_abstract :=
    List.filter (fun k => str_contains (str_lower k) (str_lower abstract))
                user_keywords in
  calculate_relevance_score days_old paper user_keywords
  = Some (Z.min (20 * Z.of_nat (length in_title)
                 + 10 * Z.of_nat (length in_abstract)
                 + recency_bonus days_old paper 0) 100).
Proof.
  intros Ht Ha. cbv zeta. unfold calculate_relevance_score, str_field.
  rewrite Ht, Ha. rewrite keywords_score_count, recency_bonus_shift.
  f_equal.
Qed.

(** X6.  The order of the keywords does not matter: two keyword lists that
    are permutations of each other give the same result. *)
Theorem score_permutation (paper : gmap string field)
    (user_keywords user_keywords' : list string) :
  Permutation user_keywords user_keywords' ->
  calculate_relevance_score days_old paper user_keywords
  = calculate_relevance_score days_old paper user_keywords'.
Proof.
  intros Hp. unfold calculate_relevance_score.
  destruct (str_field paper "title") as [title|]; [|reflexivity].
  destruct (str_field paper "abstract") as [abstract|]; [|reflexivity].
  rewrite (keywords_score_perm _ _ _ _ Hp). reflexivity.
Qed.

(** X7.  The score reads three keys only and ignores letter case: two
    papers whose titles and whose abstracts agree once lowered, with the
    same "published" entry, score the same on two keyword lists that agree
    once lowered. *)
Theorem score_case_insensitive (paper paper' : gmap string field)
    (title title' abstract abstract' : string)
    (user_keywords user_keywords' : list string) :
  paper !! "title" = Some (Str title) ->
  paper' !! "title" = Some (Str title') ->
  str_lower title = str_lower title' ->
  paper !! "abstract" = Some (Str abstract) ->
  paper' !! "abstract" = Some (Str abstract') ->
  str_lower abstract = str_lower abstract' ->
  paper !! "published" = paper' !! "published" ->
  List.map str_lower user_keywords = List.map str_lower user_keywords' ->
  calculate_relevance_score days_old paper user_keywords
  = calculate_relevance_score days_old paper' user_keywords'.
Proof.
  intros Ht Ht' Et Ha Ha' Ea Hp Hk.
  unfold calculate_relevance_score, recency_bonus, str_field.
  rewrite Ht, Ht', Ha, Ha', Hp, Et, Ea.
  rewrite <- (keywords_score_lower _ _ user_keywords).
  rewrite <- (keywords_score_lower _ _ user_keywords'), Hk.
  reflexivity.
Qed.


(** X9.  The empty string is a keyword that every paper matches, in title
    and in abstract: [n] empty keywords score [30 * n] before the bonus
    and the cap, so four of them give 100 on every paper. *)
Theorem score_empty_keywords (paper : gmap string field) (title abstract : string)
    (n : nat) :
  paper !! "title" = Some (Str title) ->
  paper !! "abstract" = Some (Str abstract) ->
  calculate_relevance_score days_old paper (repeat "" n)
  = Some (Z.min (30 * Z.of_nat n + recency_bonus days_old paper 0) 100)
  /\ (4 <= n -> calculate_relevance_score days_old paper (repeat "" n) = Some 100%Z).
Proof.
  intros Ht Ha.
  assert (Hs : forall score,
             fold_left (keyword_score (str_lower title) (str_lower abstract))
                       (repeat "" n) score = (score + 30 * Z.of_nat n)%Z).
  { induction n as [|n IH]; intros score; [simpl; lia|].
    change (repeat "" (S n)) with ("" :: repeat "" n).
    cbn [fold_left]. rewrite IH. unfold keyword_score.
    change (str_lower "") with "". rewrite !str_contains_empty. lia. }
  assert (Hc : calculate_relevance_score days_old paper (repeat "" n)
               = Some (Z.min (30 * Z.of_nat n + recency_bonus days_old paper 0) 100)).
  { unfold calculate_relevance_score, str_field. rewrite Ht, Ha.
    rewrite Hs, recency_bonus_shift. f_equal. }
  split; [exact Hc|].
  intros Hn. rewrite Hc. f_equal.
  pose proof (recency_bonus_range days_old paper 0). lia.
Qed.

End ScorerMore.

Lemma score_closed_form_witness :
  calculate_relevance_score (fun _ => Some 3%Z)
    (<["title" := Str "Quantum Entanglement in Superconducting Qubits"]>
     (<["abstract" := Str "We study entanglement generation in quantum computing systems."]>
     (<["published" := Str "2024-01-01T00:00:00Z"]> ∅)))
    ["entanglement"; "quantum"; "photon"]
  = Some 75%Z.
Proof.
  etransitivity.
  - apply (score_closed_form (fun _ => Some 3%Z) _
             ["entanglement"; "quantum"; "photon"]
             "Quantum Entanglement in Superconducting Qubits"
             "We study entanglement generation in quantum computing systems.");
      reflexivity.
  - vm_compute. reflexivity.
Defined.

Lemma score_permutation_witness :
  calculate_relevance_score (fun _ => None)
    (<["title" := Str "Quantum Entanglement"]>
     (<["abstract" := Str "We study photons"]> ∅)) ["photon"; "quantum"]
  = calculate_relevance_score (fun _ => None)
      (<["title" := Str "Quantum Entanglement"]>
       (<["abstract" := Str "We study photons"]> ∅)) ["quantum"; "photon"].
Proof.
  apply (score_permutation (fun _ => None)). apply perm_swap.
Defined.

Lemma score_case_insensitive_witness :
  calculate_relevance_score (fun _ => None)
    (<["title" := Str "Quantum Entanglement"]>
     (<["abstract" := Str "We study photons"]> ∅)) ["PHOTON"; "Quantum"]
  = calculate_relevance_score (fun _ => None)
      (<["title" := Str "QUANTUM entanglement"]>
       (<["abstract" := Str "we study Photons"]>
       (<["authors" := StrList ["A. Author"]]> ∅))) ["photon"; "quantum"].
Proof.
  apply (score_case_insensitive (fun _ => None) _ _
           "Quantum Entanglement" "QUANTUM entanglement"
           "We study photons" "we study Photons");
    reflexivity.
Defined.

Lemma score_empty_keywords_witness :
  calculate_relevance_score (fun _ => None)
    (<["title" := Str "Classical Mechanics"]> (<["abstract" := Str "Nothing"]> ∅))
    (repeat "" 4)
  = Some 100%Z.
Proof.
  apply (score_empty_keywords (fun _ => None) _ "Classical Mechanics" "Nothing" 4);
    [reflexivity|reflexivity|lia].
Defined.


(** ** [evaluate_retrieval_quality] *)

Section RetrievalQuality.

Variable repr_list : list string -> string.

Lemma count_relevant_range (papers : list (gmap string field))
    (query_keywords : list string) :
  forall count count',
    count_relevant repr_list papers query_keywords count = Some count' ->
    (count <= count' <= count + Z.of_nat (length papers))%Z.
Proof.
  induction papers as [|paper rest IH]; intros count count' H; simpl in H.
  - inversion H; subst. simpl. lia.
  - destruct (paper_text repr_list paper) as [text|]; [|discriminate].
    apply IH in H. simpl length.
    destruct (any_keyword_in text query_keywords); lia.
Qed.

Lemma count_relevant_returns (papers : list (gmap string field))
    (query_keywords : list string) :
  (forall paper, In paper papers ->
     is_Some (paper !! "title") /\ is_Some (paper !! "abstract")) ->
  forall count,
    exists count', count_relevant repr_list papers query_keywords count = Some count'.
Proof.
  induction papers as [|paper rest IH]; intros Hkeys count; simpl.
  - eauto.
  - destruct (Hkeys paper (or_introl eq_refl)) as [[t Ht] [a Ha]].
    unfold paper_text. rewrite Ht, Ha.
    apply IH. intros p Hp. apply Hkeys. right. exact Hp.
Qed.

Lemma count_relevant_raises (papers : list (gmap string field))
    (query_keywords : list string) :
  forall count,
    count_relevant repr_list papers query_keywords count = None ->
    exists paper, In paper papers
                  /\ (paper !! "title" = None \/ paper !! "abstract" = None).
Proof.
  induction papers as [|paper rest IH]; intros count H; simpl in H; [discriminate|].
  unfold paper_text in H.
  destruct (paper !! "title") as [t|] eqn:Ht;
    [|exists paper; split; [left; reflexivity|left; exact Ht]].
  destruct (paper !! "abstract") as [a|] eqn:Ha;
    [|exists paper; split; [left; reflexivity|right; exact Ha]].
  destruct (IH _ H) as (p & Hp & Hmiss).
  exists p. split; [right; exact Hp|exact Hmiss].
Qed.

Lemma quality_of_count (count : Z) (n : nat) :
  (0 <= count <= Z.of_nat (S n))%Z ->
  (0 <= inject_Z count / inject_Z (Z.of_nat (S n)) * 100 <= 100)%Q.
Proof.
  intros [H0 H1].
  assert (Hpos : (0 < inject_Z (Z.of_nat (S n)))%Q).
  { change 0%Q with (inject_Z 0). rewrite <- Zlt_Qlt. lia. }
  assert (Hc0 : (0 <= inject_Z count)%Q).
  { change 0%Q with (inject_Z 0). rewrite <- Zle_Qle. exact H0. }
  assert (Hc1 : (inject_Z count <= inject_Z (Z.of_nat (S n)))%Q).
  { rewrite <- Zle_Qle. exact H1. }
  set (c := inject_Z count) in *. set (m := inject_Z (Z.of_nat (S n))) in *.
  assert (Hd0 : (0 <= c / m)%Q).
  { apply Qle_shift_div_l; [exact Hpos|]. lra. }
  assert (Hd1 : (c / m <= 1)%Q).
  { apply Qle_shift_div_r; [exact Hpos|]. lra. }
  split; lra.
Qed.

(** X10.  When every paper has a "title" and an "abstract" entry the call
    returns a number between 0 and 100; the empty list gives 0. *)
Theorem retrieval_quality_range (papers : list (gmap string field))
    (query_keywords : list string) :
  (forall paper, In paper papers ->
     is_Some (paper !! "title") /\ is_Some (paper !! "abstract")) ->
  exists quality,
    evaluate_retrieval_quality repr_list papers query_keywords = Some quality
    /\ (0 <= quality <= 100)%Q
    /\ (papers = [] -> quality = 0%Q).
Proof.
  intros Hkeys. unfold evaluate_retrieval_quality.
  destruct papers as [|paper rest].
  - exists 0%Q. repeat split; try reflexivity; lra.
  - destruct (count_relevant_returns (paper :: rest) query_keywords Hkeys 0%Z)
      as [count Hcount].
    rewrite Hcount. eexists. split; [reflexivity|].
    split; [|discriminate].
    apply count_relevant_range in Hcount.
    apply (quality_of_count count (length rest)). simpl length in Hcount. lia.
Qed.

(** X11.  The call raises exactly when the list is not empty and one of
    its papers lacks "title" or "abstract", wherever in the list that
    paper stands. *)
Theorem retrieval_quality_raises_iff (papers : list (gmap string field))
    (query_keywords : list string) :
  evaluate_retrieval_quality repr_list papers query_keywords = None
  <-> exists paper, In paper papers
                    /\ (paper !! "title" = None \/ paper !! "abstract" = None).
Proof.
  split.
  - unfold evaluate_retrieval_quality. destruct papers as [|paper rest];
      [discriminate|].
    destruct (count_relevant repr_list (paper :: rest) query_keywords 0) eqn:E;
      [discriminate|].
    intros _. eapply count_relevant_raises, E.
  - intros (paper & Hin & Hmiss).
    destruct (evaluate_retrieval_quality repr_list papers query_keywords)
      as [q|] eqn:E; [exfalso|reflexivity].
    unfold evaluate_retrieval_quality in E.
    destruct papers as [|p0 rest]; [contradiction|].
    destruct (count_relevant repr_list (p0 :: rest) query_keywords 0)
      as [count|] eqn:Ec; [|discriminate].
    clear E q. revert Ec. generalize 0%Z. generalize (p0 :: rest) Hin.
    clear p0 rest Hin.
    induction l as [|p l IH]; intros Hin z Ec; [contradiction|].
    simpl in Ec. unfold paper_text in Ec.
    destruct Hin as [->|Hin].
    + destruct Hmiss as [Hm|Hm]; rewrite Hm in Ec; [discriminate|].
      destruct (paper !! "title"); discriminate.
    + destruct (p !! "title"); [|discriminate].
      destruct (p !! "abstract"); [|discriminate].
      eapply IH; eassumption.
Qed.

Lemma any_keyword_in_incl (text : string) (keywords keywords' : list string) :
  incl keywords keywords' ->
  any_keyword_in text keywords = true ->
  any_keyword_in text keywords' = true.
Proof.
  unfold any_keyword_in. intros Hincl H.
  apply existsb_exists in H. destruct H as (k & Hk & Hc).
  apply existsb_exists. exists k. split; [apply Hincl, Hk|exact Hc].
Qed.

Lemma count_relevant_incl (papers : list (gmap string field))
    (keywords keywords' : list string) :
  incl keywords keywords' ->
  forall count count' c,
    (count <= count')%Z ->
    count_relevant repr_list papers keywords count = Some c ->
    exists c', count_relevant repr_list papers keywords' count' = Some c'
               /\ (c <= c')%Z.
Proof.
  intros Hincl. induction papers as [|paper rest IH];
    intros count count' c Hle H; simpl in *.
  - inversion H; subst. eauto.
  - destruct (paper_text repr_list paper) as [text|]; [|discriminate].
    eapply IH; [|exact H].
    destruct (any_keyword_in text keywords) eqn:E.
    + rewrite (any_keyword_in_incl _ _ _ Hincl E). lia.
    + destruct (any_keyword_in text keywords'); lia.
Qed.

(** X12.  More keywords never lower the quality: when the call returns
    for a keyword list it returns for every list that holds those keywords,
    with a quality at least as high.  With no keyword at all the quality
    is 0. *)
Theorem retrieval_quality_monotone (papers : list (gmap string field))
    (query_keywords query_keywords' : list string) (quality : Q) :
  incl query_keywords query_keywords' ->
  evaluate_retrieval_quality repr_list papers query_keywords = Some quality ->
  (exists quality',
     evaluate_retrieval_quality repr_list papers query_keywords' = Some quality'
     /\ (quality <= quality')%Q)
  /\ (query_keywords = [] -> (quality == 0)%Q).
Proof.
  intros Hincl H. unfold evaluate_retrieval_quality in *.
  destruct papers as [|paper rest].
  - inversion H; subst. split; [|reflexivity].
    exists 0%Q. split; [reflexivity|lra].
  - destruct (count_relevant repr_list (paper :: rest) query_keywords 0)
      as [c|] eqn:E; [|discriminate].
    inversion H; subst. clear H. split.
    + destruct (count_relevant_incl _ _ _ Hincl 0%Z 0%Z c (Z.le_refl 0) E)
        as (c' & E' & Hle).
      rewrite E'. eexists. split; [reflexivity|].
      assert (Hpos : (0 < inject_Z (Z.of_nat (length (paper :: rest))))%Q).
      { change 0%Q with (inject_Z 0). rewrite <- Zlt_Qlt. simpl length. lia. }
      apply Qmult_le_compat_r; [|lra].
      apply Qmult_le_compat_r;
        [rewrite <- Zle_Qle; exact Hle|].
      apply Qlt_le_weak, Qinv_lt_0_compat, Hpos.
    + intros ->.
      assert (Hz : c = 0%Z).
      { clear -E. revert E. generalize (paper :: rest).
        induction l as [|p l IH]; simpl; intros E; [congruence|].
        destruct (paper_text repr_list p); [|discriminate].
        simpl in E. apply IH, E. }
      subst c. unfold Qeq. simpl. lia.
Qed.

(** X13.  A paper on which the keywords score (its relevance score without
    recency bonus is positive) counts as relevant: when every paper of a
    non-empty list is such a paper, the quality is 100. *)
Theorem retrieval_quality_of_scored (papers : list (gmap string field))
    (query_keywords : list string) :
  papers <> [] ->
  (forall paper, In paper papers ->
     exists score,
       calculate_relevance_score (fun _ => None) paper query_keywords = Some score
       /\ (0 < score)%Z) ->
  exists quality,
    evaluate_retrieval_quality repr_list papers query_keywords = Some quality
    /\ (quality == 100)%Q.
Proof.
  intros Hne Hscored.
  assert (Hrel : forall paper, In paper papers ->
            exists text, paper_text repr_list paper = Some text
                         /\ any_keyword_in text query_keywords = true).
  { intros paper Hin. destruct (Hscored paper Hin) as (score & Hs & Hpos).
    unfold calculate_relevance_score, str_field in Hs.
    destruct (paper !! "title") as [[title|]|] eqn:Ht; try discriminate.
    destruct (paper !! "abstract") as [[abstract|]|] eqn:Ha; try discriminate.
    unfold paper_text. rewrite Ht, Ha. eexists. split; [reflexivity|].
    inversion Hs; subst. clear Hs.
    rewrite keywords_score_count in Hpos.
    unfold recency_bonus in Hpos.
    assert (Hsome : exists k, In k query_keywords
              /\ (str_contains (str_lower k) (str_lower title) = true
                  \/ str_contains (str_lower k) (str_lower abstract) = true)).
    { destruct (List.filter (fun k => str_contains (str_lower k) (str_lower title))
                            query_keywords) as [|k l] eqn:Ef.
      - destruct (List.filter
                    (fun k => str_contains (str_lower k) (str_lower abstract))
                    query_keywords) as [|k l] eqn:Ea.
        + exfalso. simpl in Hpos.
          destruct (str_field paper "published"); simpl in Hpos; lia.
        + assert (Hk : In k (List.filter
                               (fun k => str_contains (str_lower k) (str_lower abstract))
                               query_keywords)) by (rewrite Ea; left; reflexivity).
          apply filter_In in Hk. exists k. tauto.
      - assert (Hk : In k (List.filter
                             (fun k => str_contains (str_lower k) (str_lower title))
                             query_keywords)) by (rewrite Ef; left; reflexivity).
        apply filter_In in Hk. exists k. tauto. }
    destruct Hsome as (k & Hk & Hc).
    unfold any_keyword_in. apply existsb_exists. exists k. split; [exact Hk|].
    simpl format_field. rewrite !str_lower_app.
    destruct Hc as [Hc|Hc].
    - rewrite <- (str_app_nil_l (str_lower title +:+ _)).
      apply str_contains_app, Hc.
    - rewrite <- str_app_assoc. apply str_contains_later, Hc. }
  assert (Hcount : forall count,
            count_relevant repr_list papers query_keywords count
            = Some (count + Z.of_nat (length papers))%Z).
  { clear Hne Hscored. induction papers as [|p l IH]; intros count; simpl.
    - f_equal. lia.
    - destruct (Hrel p (or_introl eq_refl)) as (text & -> & ->).
      rewrite IH; [f_equal; lia|].
      intros q Hq. apply Hrel. right. exact Hq. }
  unfold evaluate_retrieval_quality.
  destruct papers as [|p l]; [congruence|].
  rewrite Hcount. eexists. split; [reflexivity|].
  rewrite Z.add_0_l. field.
  intros H. unfold Qeq in H. simpl in H. lia.
Qed.

End RetrievalQuality.

Lemma retrieval_quality_range_witness :
  let papers : list (gmap string field) :=
    [ <["title" := Str "Quantum Computing"]>
        (<["abstract" := Str "Study of quantum computers"]> ∅);
      <["title" := Str "Classical Computing"]>
        (<["abstract" := Str "Study of classical computers"]> ∅);
      <["title" := Str "Quantum Algorithms"]>
        (<["abstract" := Str "New quantum algorithms"]> ∅) ] in
  exists quality,
    evaluate_retrieval_quality (fun _ => "") papers ["quantum"; "qubit"]
    = Some quality
    /\ (0 <= quality <= 100)%Q
    /\ (papers = [] -> quality = 0%Q).
Proof.
  intros papers.
  apply (retrieval_quality_range (fun _ => "") papers ["quantum"; "qubit"]).
  intros paper [<-|[<-|[<-|[]]]]; split; eexists; reflexivity.
Defined.

Lemma retrieval_quality_raises_iff_witness :
  evaluate_retrieval_quality (fun _ => "")
    [ <["title" := Str "Quantum Computing"]>
        (<["abstract" := Str "Study of quantum computers"]> ∅);
      <["title" := Str "No abstract"]> ∅ ]
    ["quantum"]
  = None.
Proof.
  apply (proj2 (retrieval_quality_raises_iff (fun _ => "") _ ["quantum"])).
  exists (<["title" := Str "No abstract"]> ∅).
  split; [right; left; reflexivity|right; reflexivity].
Defined.

Lemma retrieval_quality_monotone_witness :
  (exists quality',
     evaluate_retrieval_quality (fun _ => "")
       [ <["title" := Str "Quantum Computing"]>
           (<["abstract" := Str "Study of quantum computers"]> ∅);
         <["title" := Str "Trapped ions"]>
           (<["abstract" := Str "A qubit register"]> ∅) ]
       ["quantum"; "qubit"] = Some quality'
     /\ (inject_Z 1 / inject_Z 2 * 100 <= quality')%Q)
  /\ (["quantum"] = [] -> (inject_Z 1 / inject_Z 2 * 100 == 0)%Q).
Proof.
  apply (retrieval_quality_monotone (fun _ => "") _ ["quantum"] ["quantum"; "qubit"]).
  - intros k [<-|[]]. left. reflexivity.
  - vm_compute. reflexivity.
Defined.

Lemma retrieval_quality_of_scored_witness :
  exists quality,
    evaluate_retrieval_quality (fun _ => "")
      [ <["title" := Str "Quantum Computing"]>
          (<["abstract" := Str "Study of quantum computers"]> ∅);
        <["title" := Str "Trapped ions"]>
          (<["abstract" := Str "A qubit register"]> ∅) ]
      ["quantum"; "qubit"] = Some quality
    /\ (quality == 100)%Q.
Proof.
  apply (retrieval_quality_of_scored (fun _ => "")).
  - discriminate.
  - intros paper [<-|[<-|[]]]; eexists; split;
      try (vm_compute; reflexivity); reflexivity.
Defined.

(** ** [evaluate_summary_completeness] *)

Lemma any_word_in_app (words : list string) (before lowered after : string) :
  any_word_in words lowered = true ->
  any_word_in words (before +:+ lowered +:+ after) = true.
Proof.
  unfold any_word_in. intros H. apply existsb_exists in H.
  destruct H as (x & Hx & Hc). apply existsb_exists.
  exists x. split; [exact Hx|]. apply str_contains_app, Hc.
Qed.

(** X14.  The result always has exactly the four keys
    "executive_summary", "top_papers", "trends" and "recommendations", and
    the letter case of the summary does not matter. *)
Theorem summary_completeness_keys (summary : string) :
  dom (evaluate_summary_completeness summary)
  = ({["executive_summary"; "top_papers"; "trends"; "recommendations"]}
     : gset string)
  /\ evaluate_summary_completeness (str_lower summary)
     = evaluate_summary_completeness summary.
Proof.
  split.
  - unfold evaluate_summary_completeness.
    rewrite !dom_insert_L, dom_empty_L. set_solver.
  - unfold evaluate_summary_completeness. rewrite str_lower_idem. reflexivity.
Qed.

(** X15.  A section found in a summary is still found when text is put
    before and after the summary: a flag that is [True] stays [True]. *)
Theorem summary_completeness_monotone (summary before after key : string) :
  evaluate_summary_completeness summary !! key = Some true ->
  evaluate_summary_completeness (before +:+ summary +:+ after) !! key = Some true.
Proof.
  unfold evaluate_summary_completeness.
  rewrite !str_lower_app.
  set (low := str_lower summary).
  set (b := str_lower before). set (a := str_lower after).
  rewrite !lookup_insert. 
  repeat case_decide; try (rewrite lookup_empty; discriminate);
    intros Hflag; inversion Hflag as [Hflag']; rewrite Hflag'; f_equal;
    first [apply any_word_in_app, Hflag' | apply str_contains_app, Hflag'].
Qed.

Lemma summary_completeness_monotone_witness :
  evaluate_summary_completeness
    ("Report. " +:+ "Executive Summary: surface codes" +:+ " (end)")
    !! "executive_summary" = Some true.
Proof.
  apply (summary_completeness_monotone "Executive Summary: surface codes").
  vm_compute. reflexivity.
Defined.

(** ** [MetricsPlugin], further *)

(** X16.  What the counters count, in every state reached from a fresh
    instance: [agent_calls] is the number of start callbacks;
    [successful_operations] is the number of end callbacks that come after
    the first start; [papers_processed] is still 0, since no callback
    writes it. *)
Theorem counters_count (calls : list callback) :
  let self := run calls metrics_init in
  agent_calls self = Z.of_nat (length (List.filter is_before calls))
  /\ successful_operations self
     = Z.of_nat (length (List.filter is_after (skip_leading_ends calls)))
  /\ papers_processed self = 0%Z.
Proof.
  cbv zeta. destruct (run_agent_calls calls metrics_init) as [Ha Hp].
  split; [rewrite Ha; simpl; lia|]. split; [|exact Hp].
  apply run_successful_operations.
Qed.

Lemma total_seconds_nonneg (later earlier : Z) :
  (earlier <= later)%Z -> (0 <= total_seconds later earlier)%Q.
Proof.
  intros H. unfold total_seconds.
  apply Qle_shift_div_l; [reflexivity|].
  rewrite Qmult_0_l. change 0%Q with (inject_Z 0). rewrite <- Zle_Qle. lia.
Qed.

Lemma run_total_nonneg (calls : list callback) :
  forall self,
    (0 <= total_processing_time self)%Q ->
    StronglySorted Z.le (List.map clock calls) ->
    (forall started, start_time self = Some started ->
       Forall (fun c => (started <= clock c)%Z) calls) ->
    (0 <= total_processing_time (run calls self))%Q.
Proof.
  induction calls as [|c rest IH]; intros self H0 Hsorted Hstart; simpl.
  - exact H0.
  - simpl in Hsorted. apply StronglySorted_inv in Hsorted.
    destruct Hsorted as [Hsorted Hhd].
    destruct c as [now|now]; simpl.
    + apply IH; [exact H0|exact Hsorted|].
      simpl. intros started Hs. inversion Hs; subst.
      simpl in Hhd. rewrite Forall_map in Hhd. exact Hhd.
    + unfold after_agent_callback.
      destruct (start_time self) as [started|] eqn:Hs.
      * pose proof (Hstart started eq_refl) as Hall.
        apply Forall_cons_1 in Hall. destruct Hall as [Hnow Hall].
        apply IH; simpl; [|exact Hsorted|].
        -- pose proof (total_seconds_nonneg now started Hnow). lra.
        -- intros started' Hs'. inversion Hs'; subst. exact Hall.
      * apply IH; [exact H0|exact Hsorted|].
        intros started Hs'. congruence.
Qed.

(** X17.  When the clock never goes back between the callbacks of a run
    from a fresh instance, [total_processing_time] is never negative.  The
    clock read is the wall clock: with a reading that goes back the total
    can be negative. *)
Theorem total_time_nonneg :
  (forall calls,
     StronglySorted Z.le (List.map clock calls) ->
     (0 <= total_processing_time (run calls metrics_init))%Q)
  /\ (total_processing_time (run [Before 5000000; After 0] metrics_init) < 0)%Q.
Proof.
  split.
  - intros calls Hsorted. apply run_total_nonneg.
    + simpl. lra.
    + exact Hsorted.
    + intros started Hs. discriminate.
  - vm_compute. reflexivity.
Qed.

Lemma total_time_nonneg_witness :
  (0 <= total_processing_time
          (run [Before 0; After 2000000; After 2500000; Before 3000000]
               metrics_init))%Q.
Proof.
  apply (proj1 total_time_nonneg).
  simpl. repeat constructor; lia.
Defined.

(** X19.  The reliability rating of a summary takes two values only: for
    every state reached from a fresh instance, [evaluate_performance] on
    its summary rates reliability "Excellent" when an operation has
    completed and "Needs Improvement" when none has. *)
Theorem summary_reliability_rating (calls : list callback) :
  let self := run calls metrics_init in
  evaluate_performance (get_metrics_summary self) !! "reliability"
  = Some (if (0 <? successful_operations self)%Z
          then "Excellent" else "Needs Improvement").
Proof.
  cbv zeta.
  pose proof (run_failed_operations calls metrics_init) as Hf. simpl in Hf.
  set (self := run calls metrics_init) in *.
  assert (Hrate : get_metrics_summary self !! "success_rate_percent"
                  = Some (if (0 <? successful_operations self)%Z
                          then round2 100 else round2 0)).
  { unfold get_metrics_summary. rewrite Hf, Z.add_0_r.
    repeat (rewrite lookup_insert_ne; [|discriminate]).
    rewrite lookup_insert_eq. f_equal.
    destruct (Z.ltb_spec 0 (successful_operations self)) as [Hpos|Hle];
      [|reflexivity].
    apply round2_comp. field.
    intros Hn. unfold Qeq in Hn. simpl in Hn. lia. }
  unfold evaluate_performance. rewrite Hrate.
  destruct (0 <? successful_operations self)%Z; simpl default.
  - change (Qle_bool 95 (round2 100)) with true. cbv iota.
    apply lookup_insert_eq.
  - change (Qle_bool 95 (round2 0)) with false.
    change (Qle_bool 85 (round2 0)) with false.
    change (Qle_bool 70 (round2 0)) with false. cbv iota.
    apply lookup_insert_eq.
Qed.

Lemma run_spans (spans : list (Z * Z)) :
  forall self,
    let ended := run (span_calls spans) self in
    agent_calls ended = (agent_calls self + Z.of_nat (length spans))%Z
    /\ successful_operations ended
       = (successful_operations self + Z.of_nat (length spans))%Z
    /\ (total_processing_time ended
        == total_processing_time self + spans_seconds spans)%Q.
Proof.
  induction spans as [|[started ended] rest IH]; intros self; cbv zeta.
  - simpl. repeat split; try lia. lra.
  - change (span_calls ((started, ended) :: rest))
      with (Before started :: After ended :: span_calls rest).
    cbn [run fire].
    destruct (IH (after_agent_callback ended (before_agent_callback started self)))
      as (Ha & Hs & Ht).
    rewrite Ha, Hs, Ht. simpl. repeat split; try lia. lra.
Qed.

(** X20.  Operations run one after the other, each started and then
    ended, are measured as they ran: after [n] of them on a fresh instance
    [agent_calls] and [successful_operations] are both [n],
    [failed_operations] is 0, and [total_processing_time] is the sum of
    the times between each start and its end. *)
Theorem sequential_spans_measured (spans : list (Z * Z)) :
  let self := run (span_calls spans) metrics_init in
  agent_calls self = Z.of_nat (length spans)
  /\ successful_operations self = Z.of_nat (length spans)
  /\ failed_operations self = 0%Z
  /\ (total_processing_time self == spans_seconds spans)%Q.
Proof.
  cbv zeta. destruct (run_spans spans metrics_init) as (Ha & Hs & Ht).
  cbv zeta in Ha, Hs, Ht. simpl in Ha, Hs, Ht.
  repeat split; try assumption.
  - apply (run_failed_operations (span_calls spans) metrics_init).
  - rewrite Ht. lra.
Qed.

(** ** [fetch_arxiv_papers] *)

Lemma comprehension_raises {A B : Type} (f : A -> option B) (xs : list A) (x : A) :
  In x xs -> f x = None -> comprehension f xs = None.
Proof.
  induction xs as [|y rest IH]; intros Hin Hx; [contradiction|].
  simpl. destruct Hin as [->|Hin].
  - rewrite Hx. reflexivity.
  - destruct (f y); [|reflexivity]. rewrite (IH Hin Hx). reflexivity.
Qed.

Lemma comprehension_returns {A B : Type} (f : A -> option B) (xs : list A)
    (ys : list B) :
  comprehension f xs = Some ys <-> Forall2 (fun x y => f x = Some y) xs ys.
Proof.
  revert ys. induction xs as [|x rest IH]; intros ys; simpl.
  - split.
    + intros H. inversion H. constructor.
    + intros H. inversion H. reflexivity.
  - destruct (f x) as [y|] eqn:Ex.
    + destruct (comprehension f rest) as [ys'|] eqn:Er.
      * split.
        -- intros H. inversion H; subst. constructor; [exact Ex|].
           apply IH. reflexivity.
        -- intros H. inversion H as [|? y0 ? ys0 Hy Hrest]; subst.
           apply IH in Hrest. congruence.
      * split; [discriminate|].
        intros H. inversion H as [|? y0 ? ys0 Hy Hrest]; subst.
        apply IH in Hrest. discriminate.
    + split; [discriminate|].
      intros H. inversion H as [|? y0 ? ys0 Hy Hrest]; subst. congruence.
Qed.

Lemma comprehension_total {A B : Type} (f : A -> option B) (xs : list A) :
  (forall x, In x xs -> f x <> None) ->
  exists ys, comprehension f xs = Some ys.
Proof.
  induction xs as [|x rest IH]; intros Hall; simpl; [eauto|].
  destruct (f x) as [y|] eqn:Ex;
    [|exfalso; apply (Hall x (or_introl eq_refl) Ex)].
  destruct IH as [ys ->]; [|eauto].
  intros x' Hx'. apply Hall. right. exact Hx'.
Qed.

Lemma comprehension_none {A B : Type} (f : A -> option B) (xs : list A) :
  comprehension f xs = None -> exists x, In x xs /\ f x = None.
Proof.
  induction xs as [|x rest IH]; simpl; [discriminate|].
  destruct (f x) as [y|] eqn:Ex; [|intros _; exists x; auto].
  destruct (comprehension f rest); [discriminate|].
  intros _. destruct (IH eq_refl) as (x' & Hin & Hx'). exists x'. auto.
Qed.

(** X21.  The fetch is all or nothing.  When the request or the parser
    raises the result is empty; when a single entry of the feed cannot be
    turned into a paper the result is empty too, whatever the other entries
    hold; otherwise the result has one paper per entry, in the order of the
    feed. *)
Theorem fetch_all_or_nothing :
  fetch_arxiv_papers None = []
  /\ (forall root entry,
        In entry (elem_findall root "entry") ->
        entry_paper entry = None ->
        fetch_arxiv_papers (Some root) = [])
  /\ (forall root,
        (forall entry, In entry (elem_findall root "entry") ->
                       entry_paper entry <> None) ->
        Forall2 (fun entry paper => entry_paper entry = Some paper)
                (elem_findall root "entry") (fetch_arxiv_papers (Some root))).
Proof.
  split; [reflexivity|]. split.
  - intros root entry Hin Hbad. unfold fetch_arxiv_papers.
    rewrite (comprehension_raises _ _ _ Hin Hbad). reflexivity.
  - intros root Hall. unfold fetch_arxiv_papers.
    destruct (comprehension_total entry_paper _ Hall) as [papers Hp].
    rewrite Hp. apply comprehension_returns, Hp.
Qed.

(** X22.  What makes an entry unusable: no "id", "title" or "summary"
    child or no text in it, no "published" child, an author without a
    "name" child, or a category without a "term" attribute.  An entry with
    none of these defects gives a paper. *)
Theorem entry_paper_raises_iff (entry : element) :
  entry_paper entry = None
  <-> find_str entry "id" = None
      \/ find_str entry "title" = None
      \/ find_str entry "summary" = None
      \/ find_text entry "published" = None
      \/ (exists author, In author (elem_findall entry "author")
                         /\ find_text author "name" = None)
      \/ (exists cat, In cat (elem_findall entry "category")
                      /\ elem_attrib cat !! "term" = None).
Proof.
  unfold entry_paper.
  destruct (find_str entry "id") as [id|]; [|tauto].
  destruct (find_str entry "title") as [title|]; [|tauto].
  destruct (find_str entry "summary") as [summary|]; [|tauto].
  destruct (find_text entry "published") as [published|]; [|tauto].
  destruct (comprehension (fun author => find_text author "name")
                          (elem_findall entry "author")) as [authors|] eqn:Ea.
  - destruct (comprehension (fun cat => elem_attrib cat !! "term")
                            (elem_findall entry "category")) as [cats|] eqn:Ec.
    + split; [discriminate|].
      intros [H|[H|[H|[H|[(a & Hin & Hn)|(c & Hin & Hn)]]]]]; try discriminate.
      * rewrite (comprehension_raises _ _ _ Hin Hn) in Ea. discriminate.
      * rewrite (comprehension_raises _ _ _ Hin Hn) in Ec. discriminate.
    + split; [intros _|reflexivity]. do 5 right.
      destruct (comprehension_none _ _ Ec) as (c & Hin & Hn). eauto.
  - split; [intros _|reflexivity]. do 4 right. left.
    destruct (comprehension_none _ _ Ea) as (a & Hin & Hn). eauto.
Qed.

Lemma entry_paper_raises_iff_witness :
  entry_paper
    (Element (atom "entry") ∅ None
       [ Element (atom "id") ∅ (Some "http://arxiv.org/abs/2401.00002v1") [];
         Element (atom "title") ∅ None [];
         Element (atom "summary") ∅ (Some "No title here.") [];
         Element (atom "published") ∅ (Some "2024-01-02T00:00:00Z") [] ])
  = None.
Proof.
  apply (proj2 (entry_paper_raises_iff _)).
  right. left. reflexivity.
Defined.

Lemma fetch_all_or_nothing_witness :
  fetch_arxiv_papers
    (Some (Element (atom "feed") ∅ None
       [ Element (atom "entry") ∅ None
           [ Element (atom "id") ∅ (Some "http://arxiv.org/abs/2401.00001v1") [];
             Element (atom "title") ∅ (Some " Surface codes ") [];
             Element (atom "summary") ∅ (Some "We study codes.") [];
             Element (atom "published") ∅ (Some "2024-01-01T00:00:00Z") [] ];
         Element (atom "entry") ∅ None
           [ Element (atom "id") ∅ (Some "http://arxiv.org/abs/2401.00002v1") [];
             Element (atom "title") ∅ None [];
             Element (atom "summary") ∅ (Some "No title here.") [];
             Element (atom "published") ∅ (Some "2024-01-02T00:00:00Z") [] ] ]))
  = [].
Proof.
  apply (proj1 (proj2 fetch_all_or_nothing) _
           (Element (atom "entry") ∅ None
              [ Element (atom "id") ∅ (Some "http://arxiv.org/abs/2401.00002v1") [];
                Element (atom "title") ∅ None [];
                Element (atom "summary") ∅ (Some "No title here.") [];
                Element (atom "published") ∅ (Some "2024-01-02T00:00:00Z") [] ])).
  - vm_compute. right. left. reflexivity.
  - vm_compute. reflexivity.
Defined.

Lemma split_last_from_fixed (fuel : nat) (sep s : string) :
  str_contains sep s = false -> split_last_from fuel sep s = s.
Proof.
  intros H. apply lazy_group_none in H.
  destruct fuel; simpl; [reflexivity|]. rewrite H. reflexivity.
Qed.

Lemma split_last_from_clean (sep : string) (fuel : nat) :
  sep <> "" ->
  forall s,
    String.length s <= fuel ->
    str_contains sep (split_last_from fuel sep s) = false.
Proof.
  intros Hne. induction fuel as [|fuel IH]; intros s Hlen; simpl.
  - destruct s; [|simpl in Hlen; lia].
    destruct sep; [congruence|reflexivity].
  - destruct (lazy_group sep s) as [[group after]|] eqn:E.
    + apply IH. apply lazy_group_length in E.
      destruct sep; [congruence|]. simpl in E. lia.
    + apply lazy_group_none, E.
Qed.

Lemma split_last_clean (sep s : string) :
  sep <> "" -> str_contains sep (split_last sep s) = false.
Proof.
  intros Hne. apply split_last_from_clean; [exact Hne|lia].
Qed.

Lemma arxiv_url_id (paper_id : string) :
  str_contains "/abs/" paper_id = false ->
  split_last "/abs/" ("https://arxiv.org/abs/" +:+ paper_id) = paper_id.
Proof.
  intros Hclean. unfold split_last.
  change ("https://arxiv.org/abs/" +:+ paper_id)
    with (String "h" ("ttps://arxiv.org/abs/" +:+ paper_id)).
  change (String.length (String "h" ("ttps://arxiv.org/abs/" +:+ paper_id)))
    with (S (String.length ("ttps://arxiv.org/abs/" +:+ paper_id))).
  cbn [split_last_from].
  assert (Hl : lazy_group "/abs/"
                 (String "h" ("ttps://arxiv.org/abs/" +:+ paper_id))
               = Some ("https://arxiv.org", paper_id)).
  { change (String "h" ("ttps://arxiv.org/abs/" +:+ paper_id))
      with ("https://arxiv.org" +:+ "/abs/" +:+ paper_id).
    cbv [String.append]. reflexivity. }
  rewrite Hl. apply split_last_from_fixed, Hclean.
Qed.

Lemma fetched_from_entry (response : option element) (paper : gmap string pyvalue) :
  In paper (fetch_arxiv_papers response) ->
  exists entry, entry_paper entry = Some paper.
Proof.
  unfold fetch_arxiv_papers. destruct response as [root|]; [|contradiction].
  destruct (comprehension entry_paper (elem_findall root "entry"))
    as [papers|] eqn:E; [|contradiction].
  apply comprehension_returns in E. intros Hin.
  induction E as [|entry p entries papers Hp _ IH]; [contradiction|].
  destruct Hin as [<-|Hin]; eauto.
Qed.

(** X23.  Every paper the fetch returns is a dictionary with the eight
    keys of the source: its title and abstract are strings without white
    space at either end, its id holds no "/abs/", its two URLs are built
    from the id, and taking the id of its "arxiv_url" the way the fetch
    takes ids gives the id back. *)
Theorem fetched_paper_shape (response : option element)
    (paper : gmap string pyvalue) :
  In paper (fetch_arxiv_papers response) ->
  exists paper_id title abstract published authors categories,
    paper = <["id" := PyStr paper_id]>
            (<["title" := PyStr title]>
            (<["authors" := PyList authors]>
            (<["abstract" := PyStr abstract]>
            (<["published" := published]>
            (<["arxiv_url" := PyStr ("https://arxiv.org/abs/" +:+ paper_id)]>
            (<["pdf_url" := PyStr ("https://arxiv.org/pdf/" +:+ paper_id +:+ ".pdf")]>
            (<["categories" := PyList categories]> ∅)))))))
    /\ str_strip title = title
    /\ str_strip abstract = abstract
    /\ str_contains "/abs/" paper_id = false
    /\ split_last "/abs/" ("https://arxiv.org/abs/" +:+ paper_id) = paper_id.
Proof.
  intros Hin. destruct (fetched_from_entry _ _ Hin) as [entry He].
  unfold entry_paper in He.
  destruct (find_str entry "id") as [id_text|]; [|discriminate].
  destruct (find_str entry "title") as [title_text|]; [|discriminate].
  destruct (find_str entry "summary") as [summary_text|]; [|discriminate].
  destruct (find_text entry "published") as [published|]; [|discriminate].
  destruct (comprehension _ (elem_findall entry "author")) as [authors|];
    [|discriminate].
  destruct (comprehension _ (elem_findall entry "category")) as [cats|];
    [|discriminate].
  inversion He as [Hpaper]. clear He.
  assert (Hclean : str_contains "/abs/" (split_last "/abs/" id_text) = false)
    by (apply split_last_clean; discriminate).
  exists (split_last "/abs/" id_text), (str_strip title_text),
         (str_strip summary_text), (py_text published), authors,
         (List.map Some cats).
  split; [reflexivity|].
  split; [apply str_strip_idem|]. split; [apply str_strip_idem|].
  split; [exact Hclean|]. apply arxiv_url_id, Hclean.
Qed.

Lemma fetched_paper_shape_witness :
  let response :=
    Some (Element (atom "feed") ∅ None
       [ Element (atom "entry") ∅ None
           [ Element (atom "id") ∅ (Some "http://arxiv.org/abs/2401.00001v1") [];
             Element (atom "title") ∅ (Some " Surface codes ") [];
             Element (atom "summary") ∅ (Some "We study codes.") [];
             Element (atom "published") ∅ None [];
             Element (atom "author") ∅ None
               [Element (atom "name") ∅ (Some "A. Author") []];
             Element (atom "category") (<["term" := "quant-ph"]> ∅) None [] ] ]) in
  exists paper_id title abstract published authors categories,
    List.hd ∅ (fetch_arxiv_papers response)
    = <["id" := PyStr paper_id]>
      (<["title" := PyStr title]>
      (<["authors" := PyList authors]>
      (<["abstract" := PyStr abstract]>
      (<["published" := published]>
      (<["arxiv_url" := PyStr ("https://arxiv.org/abs/" +:+ paper_id)]>
      (<["pdf_url" := PyStr ("https://arxiv.org/pdf/" +:+ paper_id +:+ ".pdf")]>
      (<["categories" := PyList categories]> ∅)))))))
    /\ str_strip title = title
    /\ str_strip abstract = abstract
    /\ str_contains "/abs/" paper_id = false
    /\ split_last "/abs/" ("https://arxiv.org/abs/" +:+ paper_id) = paper_id.
Proof.
  intros response.
  apply (fetched_paper_shape response (List.hd ∅ (fetch_arxiv_papers response))).
  vm_compute. left. reflexivity.
Defined.

Lemma scorer_view_str (paper : gmap string pyvalue) (key s : string) :
  paper !! key = Some (PyStr s) -> scorer_view paper !! key = Some (Str s).
Proof.
  intros H. unfold scorer_view. rewrite lookup_omap, H. reflexivity.
Qed.

(** X24.  Scoring a fetched paper never raises: for every paper the fetch
    returns, every clock and every keyword list, the relevance score is
    returned and lies between 0 and 100; and [evaluate_retrieval_quality]
    on the fetched list returns too. *)
Theorem fetched_papers_score (response : option element)
    (days_old : string -> option Z) (repr_list : list string -> string)
    (user_keywords : list string) :
  (forall paper,
     In paper (fetch_arxiv_papers response) ->
     exists score,
       calculate_relevance_score days_old (scorer_view paper) user_keywords
       = Some score
       /\ (0 <= score <= 100)%Z)
  /\ exists quality,
       evaluate_retrieval_quality repr_list
         (List.map scorer_view (fetch_arxiv_papers response)) user_keywords
       = Some quality
       /\ (0 <= quality <= 100)%Q.
Proof.
  assert (Hkeys : forall paper, In paper (fetch_arxiv_papers response) ->
            exists title abstract,
              scorer_view paper !! "title" = Some (Str title)
              /\ scorer_view paper !! "abstract" = Some (Str abstract)).
  { intros paper Hin.
    destruct (fetched_paper_shape _ _ Hin)
      as (id & title & abstract & published & authors & cats & -> & _).
    exists title, abstract. split; apply scorer_view_str; reflexivity. }
  split.
  - intros paper Hin. destruct (Hkeys paper Hin) as (title & abstract & Ht & Ha).
    unfold calculate_relevance_score, str_field. rewrite Ht, Ha.
    eexists. split; [reflexivity|].
    pose proof (keywords_score_nonneg (str_lower title) (str_lower abstract)
                  user_keywords 0%Z (Z.le_refl 0)) as Hk.
    pose proof (recency_bonus_range days_old (scorer_view paper)
                  (fold_left (keyword_score (str_lower title) (str_lower abstract))
                             user_keywords 0%Z)) as Hr.
    lia.
  - destruct (retrieval_quality_range repr_list
                (List.map scorer_view (fetch_arxiv_papers response)) user_keywords)
      as (quality & Hq & Hrange & _).
    + intros p Hp. apply in_map_iff in Hp. destruct Hp as (paper & <- & Hin).
      destruct (Hkeys paper Hin) as (title & abstract & Ht & Ha).
      rewrite Ht, Ha. split; eexists; reflexivity.
    + exists quality. split; [exact Hq|exact Hrange].
Qed.

Lemma fetched_papers_score_witness :
  let response :=
    Some (Element (atom "feed") ∅ None
       [ Element (atom "entry") ∅ None
           [ Element (atom "id") ∅ (Some "http://arxiv.org/abs/2401.00001v1") [];
             Element (atom "title") ∅ (Some " Quantum surface codes ") [];
             Element (atom "summary") ∅ (Some "We study codes.") [];
             Element (atom "published") ∅ None [] ] ]) in
  exists score,
    calculate_relevance_score (fun _ => Some 3%Z)
      (scorer_view (List.hd ∅ (fetch_arxiv_papers response))) ["quantum"]
    = Some score
    /\ (0 <= score <= 100)%Z.
Proof.
  intros response.
  apply (proj1 (fetched_papers_score response (fun _ => Some 3%Z) (fun _ => "")
                  ["quantum"])).
  vm_compute. left. reflexivity.
Defined.

(** ** [TestSuite] *)

Lemma run_tests_counts (calls : list (string * bool * string)) :
  forall self,
    let done := run_tests calls self in
    passed done
    = (passed self + Z.of_nat (length (List.filter call_condition calls)))%Z
    /\ failed done
       = (failed self
          + Z.of_nat (length (List.filter (fun c => negb (call_condition c)) calls)))%Z
    /\ results done
       = (results self
          ++ List.flat_map
               (fun call => results (fst (test (fst (fst call)) (snd (fst call))
                                               (snd call) suite_init)))
               calls)%list.
Proof.
  induction calls as [|[[name condition] message] rest IH]; intros self; cbv zeta.
  - simpl. rewrite app_nil_r. repeat split; lia.
  - cbn [run_tests]. destruct (IH (fst (test name condition message self)))
      as (Hp & Hf & Hr).
    cbv zeta in Hp, Hf, Hr. rewrite Hp, Hf, Hr.
    cbn [List.filter call_condition fst snd List.flat_map].
    destruct condition; simpl; rewrite <- ?app_assoc; repeat split; try lia;
      reflexivity.
Qed.

(** X25.  The counters of a test suite count: after any sequence of
    [test] calls on a fresh suite, [passed] is the number of calls whose
    condition held, [failed] the number of the others, [results] has one
    line per call, in the order of the calls, and
    [passed + failed = len(results)]. *)
Theorem test_suite_counts (calls : list (string * bool * string)) :
  let self := run_tests calls suite_init in
  passed self = Z.of_nat (length (List.filter call_condition calls))
  /\ failed self
     = Z.of_nat (length (List.filter (fun c => negb (call_condition c)) calls))
  /\ length (results self) = length calls
  /\ (passed self + failed self)%Z = Z.of_nat (length (results self))
  /\ results self
     = List.flat_map
         (fun call => results (fst (test (fst (fst call)) (snd (fst call))
                                         (snd call) suite_init)))
         calls.
Proof.
  cbv zeta. destruct (run_tests_counts calls suite_init) as (Hp & Hf & Hr).
  cbv zeta in Hp, Hf, Hr. simpl in Hp, Hf, Hr.
  assert (Hlen : length (results (run_tests calls suite_init)) = length calls).
  { rewrite Hr. clear. induction calls as [|[[n c] m] rest IH]; [reflexivity|].
    cbn [List.flat_map]. rewrite length_app, IH. reflexivity. }
  assert (Hsplit : (length (List.filter call_condition calls)
                    + length (List.filter (fun c => negb (call_condition c)) calls)
                    = length calls)%nat).
  { clear. induction calls as [|c rest IH]; [reflexivity|].
    simpl. destruct (call_condition c); simpl; lia. }
  repeat split; try assumption. rewrite Hp, Hf, Hlen. lia.
Qed.

Lemma run_tests_total (calls : list (string * bool * string)) :
  let self := run_tests calls suite_init in
  passed self = Z.of_nat (length (List.filter call_condition calls))
  /\ failed self
     = Z.of_nat (length (List.filter (fun c => negb (call_condition c)) calls))
  /\ (passed self + failed self)%Z = Z.of_nat (length calls).
Proof.
  cbv zeta. destruct (run_tests_counts calls suite_init) as (Hp & Hf & _).
  cbv zeta in Hp, Hf. simpl in Hp, Hf.
  assert (Hsplit : (length (List.filter call_condition calls)
                    + length (List.filter (fun c => negb (call_condition c)) calls)
                    = length calls)%nat).
  { clear. induction calls as [|c rest IH]; [reflexivity|].
    simpl. destruct (call_condition c); simpl; lia. }
  rewrite Hp, Hf. repeat split. lia.
Qed.

(** X26.  [print_summary] on a suite that has recorded a sequence of
    [test] calls, however the rate is formatted.  It first prints the
    header and the three count lines, which show the number of calls, of
    calls whose condition held and of the others.  Then it raises
    [ZeroDivisionError] exactly when no call was recorded; otherwise it
    prints the rate line and the closing bar and returns. *)
Theorem print_summary_raises_iff (rate_text : Z -> Z -> string)
    (calls : list (string * bool * string)) :
  let self := run_tests calls suite_init in
  let printed := fst (print_summary rate_text self) in
  let raised := snd (print_summary rate_text self) in
  let passes := Z.of_nat (length (List.filter call_condition calls)) in
  let total := Z.of_nat (length calls) in
  (raised = true <-> calls = [])
  /\ take 6 printed
     = [ String "010" EmptyString +:+ str_repeat "=" 80;
         "TEST SUMMARY";
         str_repeat "=" 80;
         "Total Tests: " +:+ pretty total;
         "✅ Passed: " +:+ pretty passes;
         "❌ Failed: " +:+ pretty (total - passes)%Z ]
  /\ (raised = true -> length printed = 6%nat)
  /\ (raised = false ->
      drop 6 printed
      = [ "Success Rate: " +:+ rate_text passes total +:+ "%";
          str_repeat "=" 80 ]).
Proof.
  cbv zeta. destruct (run_tests_total calls) as (Hp & Hf & Hsum).
  cbv zeta in Hp, Hf, Hsum.
  set (self := run_tests calls suite_init) in *.
  assert (Hfail : failed self
                  = (Z.of_nat (length calls)
                     - Z.of_nat (length (List.filter call_condition calls)))%Z)
    by lia.
  unfold print_summary. rewrite Hsum, Hfail, Hp.
  destruct (Z.eqb_spec (Z.of_nat (length calls)) 0) as [Hz|Hnz]; cbn [fst snd].
  - split; [|split; [reflexivity|split; [reflexivity|discriminate]]].
    split; [intros _|reflexivity]. destruct calls; [reflexivity|].
    simpl length in Hz. lia.
  - split; [|split; [reflexivity|split; [discriminate|reflexivity]]].
    split; [discriminate|]. intros Hc. rewrite Hc in Hnz. simpl in Hnz. lia.
Qed.

Lemma print_summary_raises_iff_witness :
  (snd (print_summary (fun _ _ => "?") (run_tests [] suite_init)) = true
   /\ length (fst (print_summary (fun _ _ => "?") (run_tests [] suite_init)))
      = 6%nat)
  /\ drop 6 (fst (print_summary (fun _ _ => "50.0")
                    (run_tests [("fetch", true, ""); ("score", false, "Score: 0")]
                               suite_init)))
     = [ "Success Rate: 50.0%"; str_repeat "=" 80 ].
Proof.
  pose proof (print_summary_raises_iff (fun _ _ => "?") []) as H.
  cbv zeta in H. destruct H as (Hraise & _ & Hlen & _).
  assert (Hr : snd (print_summary (fun _ _ => "?") (run_tests [] suite_init))
               = true) by (apply Hraise; reflexivity).
  split; [split; [exact Hr|apply Hlen, Hr]|].
  pose proof (print_summary_raises_iff (fun _ _ => "50.0")
                [("fetch", true, ""); ("score", false, "Score: 0")]) as H2.
  cbv zeta in H2. destruct H2 as (_ & _ & _ & Hrest).
  apply Hrest. reflexivity.
Defined.
